(** * Image-Compressor: resize-and-encode decision flow

    A shallow embedding of [image_compressor.py] (function
    [compress_image]) and of the interactive front end [script.py].

    The imaging library (Pillow) and the operating system are external
    collaborators: their operations are the fields of the class
    [Platform]; the repository's own logic (path handling, the
    aspect-ratio arithmetic, the extension dispatch, the error wrapping)
    is transcribed line by line.

    Conventions.
    - Python [int] is [Z]; Python [float] is IEEE binary64, given by the
      reference operations of [SpecFloat] at precision 53 and maximal
      exponent 1024 (round to nearest, ties to even).
    - Python [str] is [string]; [str.lower] is modelled on ASCII text
      (characters outside A-Z are left alone): the verdict on an
      extension is Python's for every path, the text of a lower-cased
      extension is Python's for paths of ASCII characters.
    - [pathlib.Path] is the POSIX flavour, with the [suffix] rule
      [0 < i < len(name) - 1] of CPython up to 3.13.
    - exceptions are values of [exn]; a computation is a function from
      the world (file table and event log) to an outcome and a world.
    - Pillow decodes lazily; here the whole decoding is accounted to
      [Image.open], the first place where the file is read. *)

From Stdlib Require Import ZArith String Ascii List Bool Lia.
From Stdlib Require Import Floats.SpecFloat.
From Stdlib Require Import DecimalString.
From stdpp Require Import base option gmap strings.

Local Open Scope Z_scope.
Local Open Scope string_scope.

(** ** Python strings *)

Module PyStr.

(** [c.lower()] for one ASCII character. *)
Definition lower_ascii (c : ascii) : ascii :=
  let n := N_of_ascii c in
  if ((65 <=? n) && (n <=? 90))%N then ascii_of_N (n + 32) else c.

(** [s.lower()] *)
Fixpoint lower (s : string) : string :=
  match s with
  | EmptyString => EmptyString
  | String c s' => String (lower_ascii c) (lower s')
  end.

(** [s.rfind(c)] for a one-character needle; [None] stands for -1. *)
Fixpoint rfind (c : ascii) (s : string) : option nat :=
  match s with
  | EmptyString => None
  | String a s' =>
      match rfind c s' with
      | Some i => Some (S i)
      | None => if Ascii.eqb a c then Some O else None
      end
  end.

(** [s[i:]] and [s[:i]] *)
Fixpoint drop (i : nat) (s : string) : string :=
  match i, s with
  | O, _ => s
  | S i', String _ s' => drop i' s'
  | S _, EmptyString => EmptyString
  end.

Fixpoint take (i : nat) (s : string) : string :=
  match i, s with
  | O, _ => EmptyString
  | S i', String a s' => String a (take i' s')
  | S _, EmptyString => EmptyString
  end.

(** [s.split(c)] for a one-character separator. *)
Fixpoint split (c : ascii) (s : string) : list string :=
  match s with
  | EmptyString => [EmptyString]
  | String a s' =>
      if Ascii.eqb a c then EmptyString :: split c s'
      else match split c s' with
           | w :: ws => String a w :: ws
           | [] => [String a EmptyString]
           end
  end.

(** [sep.join(l)] *)
Fixpoint join (sep : string) (l : list string) : string :=
  match l with
  | [] => EmptyString
  | [x] => x
  | x :: l' => x +:+ sep +:+ join sep l'
  end.

(** [p in s] for strings: [p] occurs in [s]. *)
Definition contains (p s : string) : Prop :=
  exists before after, s = before +:+ p +:+ after.

(** [s.startswith(p)] and [s.endswith(p)] *)
Definition startswith (p s : string) : bool := String.prefix p s.

Definition endswith (p s : string) : bool :=
  (String.length p <=? String.length s)%nat
  && String.eqb (drop (String.length s - String.length p) s) p.

(** [c in s] for one character. *)
Fixpoint has_char (c : ascii) (s : string) : bool :=
  match s with
  | EmptyString => false
  | String a s' => Ascii.eqb a c || has_char c s'
  end.

(** [x in l] for a list of strings. *)
Definition mem (x : string) (l : list string) : bool :=
  existsb (String.eqb x) l.

End PyStr.

(** ** pathlib, POSIX flavour *)

Module PurePath.

(** A parsed path: the root (empty, ["/"] or ["//"]) and the components
    that remain once empty ones and ["."] are dropped. *)
Record t := mk { root : string; parts : list string }.

Definition keep_part (x : string) : bool :=
  negb (String.eqb x EmptyString) && negb (String.eqb x ".").

(** [posixpath.splitroot]: one slash or three and more give the root
    ["/"], exactly two give ["//"]. *)
Definition parse_root (s : string) : string :=
  if PyStr.startswith "/" s then
    if PyStr.startswith "//" s && negb (PyStr.startswith "///" s)
    then "//" else "/"
  else EmptyString.

(** [Path(s)] *)
Definition parse (s : string) : t :=
  mk (parse_root s) (List.filter keep_part (PyStr.split "/" s)).

(** [p.name] *)
Definition name (p : t) : string := List.last (parts p) EmptyString.

(** [p.suffix] *)
Definition suffix (p : t) : string :=
  let n := name p in
  match PyStr.rfind "." n with
  | Some i =>
      if ((0 <? i) && (i <? String.length n - 1))%nat
      then PyStr.drop i n else EmptyString
  | None => EmptyString
  end.

(** [p.stem] *)
Definition stem (p : t) : string :=
  let n := name p in
  match PyStr.rfind "." n with
  | Some i =>
      if ((0 <? i) && (i <? String.length n - 1))%nat
      then PyStr.take i n else n
  | None => n
  end.

(** [p.parent] *)
Definition parent (p : t) : t := mk (root p) (removelast (parts p)).

(** [p / s] for a relative [s]; an absolute [s] replaces [p]. *)
Definition joinpath (p : t) (s : string) : t :=
  let q := parse s in
  if String.eqb (root q) EmptyString then mk (root p) (parts p ++ parts q)%list else q.

(** [str(p)] *)
Definition to_str (p : t) : string :=
  let s := root p +:+ PyStr.join "/" (parts p) in
  if String.eqb s EmptyString then "." else s.

End PurePath.

(** [os.path.splitext] of [posixpath]: the extension starts at the last
    dot of the last component, leading dots of that component apart. *)
Module PosixPath.

(** Is there a character other than a dot in [s[from:upto]] ? *)
Fixpoint has_non_dot (s : string) (from upto : nat) : bool :=
  match s with
  | EmptyString => false
  | String a s' =>
      match upto with
      | O => false
      | S upto' =>
          match from with
          | O => negb (Ascii.eqb a ".") || has_non_dot s' O upto'
          | S from' => has_non_dot s' from' upto'
          end
      end
  end.

Definition splitext (p : string) : string * string :=
  match PyStr.rfind "." p with
  | None => (p, EmptyString)
  | Some dot =>
      let filename :=
        match PyStr.rfind "/" p with Some i => S i | None => O end in
      if (filename <=? dot)%nat && has_non_dot p filename dot
      then (PyStr.take dot p, PyStr.drop dot p)
      else (p, EmptyString)
  end.

End PosixPath.


(** ** Python exceptions *)

Inductive exn :=
| FileNotFoundError (msg : string)
| ValueError (msg : string)
| ZeroDivisionError (msg : string)
| OverflowError (msg : string)
| IndexError (msg : string)
| OSError (msg : string).

(** [str(e)] *)
Definition exn_str (e : exn) : string :=
  match e with
  | FileNotFoundError m | ValueError m | ZeroDivisionError m
  | OverflowError m | IndexError m | OSError m => m
  end.

(** Pure code that may raise. *)
Definition Res (A : Type) : Type := exn + A.

Definition res_bind {A B} (r : Res A) (k : A -> Res B) : Res B :=
  match r with
  | inl e => inl e
  | inr a => k a
  end.

Notation "'let*' x ':=' r 'in' k" := (res_bind r (fun x => k))
  (at level 10, x pattern, r at level 100, k at level 200).

(** ** Python numbers: [int] and [float] *)

Module PyFloat.

Definition prec : Z := 53.
Definition emax : Z := 1024.

(** An integer as an exact, not yet rounded, binary number. *)
Definition exact (n : Z) : spec_float :=
  match n with
  | Z0 => S754_zero false
  | Zpos p => S754_finite false p 0
  | Zneg p => S754_finite true p 0
  end.

(** [float(n)]: the nearest double, ties to even. *)
Definition of_int (n : Z) : Res spec_float :=
  match binary_normalize prec emax n 0 false with
  | S754_infinity _ => inl (OverflowError "int too large to convert to float")
  | f => inr f
  end.

(** [a / b] on two ints: the correctly rounded quotient. *)
Definition truediv (a b : Z) : Res spec_float :=
  if (b =? 0)%Z then inl (ZeroDivisionError "division by zero")
  else match SFdiv prec emax (exact a) (exact b) with
       | S754_infinity _ =>
           inl (OverflowError "integer division result too large for a float")
       | f => inr f
       end.

(** [n * x] for an int [n] and a float [x]. *)
Definition mul_int (n : Z) (x : spec_float) : Res spec_float :=
  let* f := of_int n in inr (SFmul prec emax f x).

(** [int(x)]: truncation toward zero. *)
Definition to_int (x : spec_float) : Res Z :=
  match x with
  | S754_nan => inl (ValueError "cannot convert float NaN to integer")
  | S754_infinity _ => inl (OverflowError "cannot convert float infinity to integer")
  | S754_zero _ => inr 0
  | S754_finite s m e =>
      let magnitude :=
        match e with
        | Zneg k => Z.pos m / 2 ^ Z.pos k
        | _ => Z.pos m * 2 ^ e
        end in
      inr (if s then - magnitude else magnitude)
  end.

End PyFloat.

(** The rational [num / den], for [0 < den], lies in the interval from
    [m] to [m + 1], at the place [l] tells: on [m], below the middle, on
    it, or above it. *)
Definition located (num den m : Z) (l : location) : Prop :=
  (match l with
  | loc_Exact => num = m * den
  | loc_Inexact Lt => 2 * m * den < 2 * num < (2 * m + 1) * den
  | loc_Inexact Eq => 2 * num = (2 * m + 1) * den
  | loc_Inexact Gt => (2 * m + 1) * den < 2 * num < (2 * m + 2) * den
  end)%Z.

(** Truth value of an optional int argument: [None] and [0] are false. *)
Definition truthy (o : option Z) : bool :=
  match o with
  | Some n => negb (n =? 0)%Z
  | None => false
  end.

(** ** The resize arithmetic (image_compressor.py, lines 45 to 56) *)

(** The body of [if max_width and original_width > max_width]. *)
Definition new_dimensions (size : Z * Z) (max_width max_height : option Z)
  : Res (Z * Z) :=
  let '(original_width, original_height) := size in
  let new_width := original_width in
  let new_height := original_height in
  let* (new_width, new_height) :=
    match max_width with
    | Some mw =>
        if truthy max_width && (mw <? original_width)%Z then
          let* ratio := PyFloat.truediv mw original_width in
          let* product := PyFloat.mul_int original_height ratio in
          let* h := PyFloat.to_int product in
          inr (mw, h)
        else inr (new_width, new_height)
    | None => inr (new_width, new_height)
    end in
  match max_height with
  | Some mh =>
      if truthy max_height && (mh <? new_height)%Z then
        let* ratio := PyFloat.truediv mh new_height in
        let* product := PyFloat.mul_int new_width ratio in
        let* w := PyFloat.to_int product in
        inr (w, mh)
      else inr (new_width, new_height)
  | None => inr (new_width, new_height)
  end.

(** ** The resize rule, stage by stage

    The two stages of the rule as the specification words them: the
    width bound, then the height bound on what the width bound left.
    [scaled x num den] is [int(x * (num / den))]. *)

Definition scaled (x num den : Z) : Res Z :=
  let* ratio := PyFloat.truediv num den in
  let* product := PyFloat.mul_int x ratio in
  PyFloat.to_int product.

Definition bound_width (size : Z * Z) (max_width : option Z) : Res (Z * Z) :=
  match max_width with
  | Some mw =>
      if negb (mw =? 0)%Z && (mw <? fst size)%Z
      then let* h := scaled (snd size) mw (fst size) in inr (mw, h)
      else inr size
  | None => inr size
  end.

Definition bound_height (size : Z * Z) (max_height : option Z) : Res (Z * Z) :=
  match max_height with
  | Some mh =>
      if negb (mh =? 0)%Z && (mh <? snd size)%Z
      then let* w := scaled (fst size) mh (snd size) in inr (w, mh)
      else inr size
  | None => inr size
  end.

(** [n] is an integer nearest to [num / den], for [0 < den]. *)
Definition nearest_int (num den n : Z) : Prop :=
  (2 * Z.abs (n * den - num) <= den)%Z.

(** [h] is the integer part of [k / den], or one less than it when
    [den] divides [k]. *)
Definition truncated_quotient (k den h : Z) : Prop :=
  (k / den - 1 <= h <= k / den /\ (k mod den <> 0 -> h = k / den))%Z.

(** ** The external collaborators *)

(** What a path can lead to. *)
Inductive node :=
| File (data : list Byte.byte)
| Directory.

(** The [format] argument of [Image.save]; [FromExtension] is the call
    without one, where Pillow picks the encoder from the file name. *)
Inductive image_format := PNG | JPEG | FromExtension.

(** The keyword arguments of [Image.save]. *)
Record save_params := { quality : option Z; optimize : bool }.

(** Pillow and the file system.  [locate] gives the file a path string
    denotes (two strings may denote one file).  [os_error] is the
    exception the operating system raises for a path that leads nowhere
    (its message and errno are the system's).  [save_outcome] is what
    [Image.save] ends with: the bytes it wrote, or the exception it
    raised; in the latter case [failed_save] tells what is left at the
    destination. *)
Class Platform := {
  Image : Type;
  im_size : Image -> Z * Z;
  im_mode : Image -> string;
  locate : string -> string;
  os_error : gmap string node -> string -> exn;
  decode : node -> Res Image;
  resize_lanczos : Image -> Z * Z -> Res Image;
  new_image : string -> Z * Z -> Z * Z * Z -> Image;
  split : Image -> list Image;
  paste : Image -> Image -> Image -> Image;
  save_outcome :
    Image -> string -> image_format -> save_params -> gmap string node ->
    Res (list Byte.byte);
  failed_save : exn -> option node -> option node
}.

Section Pipeline.

Context `{P : Platform}.

(** What the program does to the outside, in order. *)
Inductive event :=
| EvOpen (path : string)
| EvSave (img : Image) (path : string) (fmt : image_format) (params : save_params)
| EvPrint (line : string).

Record world := { files : gmap string node; log : list event }.

Definition emit (ev : event) (w : world) : world :=
  {| files := files w; log := (log w ++ [ev])%list |}.

(** Code with effects: from a world to an outcome and a world. *)
Definition M (A : Type) : Type := world -> Res A * world.

Definition ret {A} (a : A) : M A := fun w => (inr a, w).

Definition raise {A} (e : exn) : M A := fun w => (inl e, w).

Definition bind {A B} (m : M A) (k : A -> M B) : M B :=
  fun w =>
    match m w with
    | (inl e, w') => (inl e, w')
    | (inr a, w') => k a w'
    end.

(** [try: m except Exception as e: h e] *)
Definition try_except {A} (m : M A) (h : exn -> M A) : M A :=
  fun w =>
    match m w with
    | (inl e, w') => h e w'
    | (inr a, w') => (inr a, w')
    end.

Definition lift {A} (r : Res A) : M A := fun w => (r, w).

Notation "'do*' x ':=' m 'in' k" := (bind m (fun x => k))
  (at level 10, x pattern, m at level 100, k at level 200).

(** [os.path.exists(path)] *)
Definition os_path_exists (path : string) : M bool :=
  fun w => (inr (bool_decide (is_Some (files w !! locate path))), w).

(** [Image.open(path)] *)
Definition Image_open (path : string) : M Image :=
  fun w =>
    let w' := emit (EvOpen path) w in
    match files w !! locate path with
    | Some n => (decode n, w')
    | None => (inl (os_error (files w) path), w')
    end.

(** [img.save(path, format, **params)] *)
Definition Image_save (img : Image) (path : string) (fmt : image_format)
    (params : save_params) : M unit :=
  fun w =>
    let ev := EvSave img path fmt params in
    match save_outcome img path fmt params (files w) with
    | inr data =>
        (inr tt, {| files := <[locate path := File data]> (files w);
                    log := (log w ++ [ev])%list |})
    | inl e =>
        (inl e, {| files := partial_alter (failed_save e) (locate path) (files w);
                   log := (log w ++ [ev])%list |})
    end.

(** [print(line)] *)
Definition print (line : string) : M unit :=
  fun w => (inr tt, emit (EvPrint line) w).

(** ** image_compressor.py *)

Definition default_quality : Z := 85.

Definition supported_formats : list string := [".png"; ".jpg"; ".jpeg"].

(** Lines 31 to 33: the lower-cased extension of the input path. *)
Definition file_ext (input_path : string) : string :=
  PyStr.lower (PurePath.suffix (PurePath.parse input_path)).

(** Lines 38 to 41. *)
Definition open_step (input_path : string) : M Image :=
  try_except (Image_open input_path)
    (fun e => raise (ValueError ("Error opening image: " +:+ exn_str e))).

Definition size_eqb (a b : Z * Z) : bool :=
  (fst a =? fst b)%Z && (snd a =? snd b)%Z.

(** Lines 44 to 59. *)
Definition resize_step (img : Image) (max_width max_height : option Z) : M Image :=
  if truthy max_width || truthy max_height then
    do* new_size := lift (new_dimensions (im_size img) max_width max_height) in
    if negb (size_eqb new_size (im_size img))
    then lift (resize_lanczos img new_size)
    else ret img
  else ret img.

(** Lines 62 to 64: the output path as a [Path], and as the string that
    [str] gives and that the encoder receives. *)
Definition derived_path (input_path : string) : PurePath.t :=
  let input_file := PurePath.parse input_path in
  PurePath.joinpath (PurePath.parent input_file)
    (PurePath.stem input_file +:+ "_compressed" +:+ PurePath.suffix input_file).

Definition resolved_path (input_path : string) (output_path : option string)
  : PurePath.t :=
  match output_path with
  | None => derived_path input_path
  | Some s => PurePath.parse s
  end.

Definition resolved_str (input_path : string) (output_path : option string)
  : string :=
  match output_path with
  | None => PurePath.to_str (derived_path input_path)
  | Some s => s
  end.

(** Line 67. *)
Definition output_ext (input_path : string) (output_path : option string)
  : string :=
  PyStr.lower (PurePath.suffix (resolved_path input_path output_path)).

(** Lines 70 to 74. *)
Definition flatten_step (img : Image) (ext : string) : M Image :=
  if String.eqb (im_mode img) "RGBA" && PyStr.mem ext [".jpg"; ".jpeg"] then
    let rgb_img := new_image "RGB" (im_size img) (255, 255, 255) in
    match split img !! 3%nat with
    | Some alpha => ret (paste rgb_img img alpha)
    | None => raise (IndexError "tuple index out of range")
    end
  else ret img.

(** Lines 77 to 83. *)
Definition save_step (img : Image) (out : string) (ext : string) (q : Z) : M unit :=
  try_except
    (if String.eqb ext ".png"
     then Image_save img out PNG {| quality := None; optimize := true |}
     else Image_save img out JPEG {| quality := Some q; optimize := true |})
    (fun e => raise (ValueError ("Error saving compressed image: " +:+ exn_str e))).

(** [compress_image(input_path, output_path, quality, max_width, max_height)] *)
Definition compress_image (input_path : string) (output_path : option string)
    (q : Z) (max_width max_height : option Z) : M string :=
  do* found := os_path_exists input_path in
  if negb found
  then raise (FileNotFoundError ("Input file not found: " +:+ input_path))
  else
    if negb (PyStr.mem (file_ext input_path) supported_formats)
    then raise (ValueError
                  ("Unsupported file format: " +:+ file_ext input_path
                   +:+ ". Supported: " +:+ PyStr.join ", " supported_formats))
    else
      do* img := open_step input_path in
      do* img := resize_step img max_width max_height in
      let out := resolved_str input_path output_path in
      let ext := output_ext input_path output_path in
      do* img := flatten_step img ext in
      do* _ := save_step img out ext q in
      ret out.

(** ** The steps as pure functions

    The resize and the flattening steps do not touch the world; these are
    their outcomes, and the encoder call the save step makes. *)

Definition resized (img : Image) (max_width max_height : option Z) : Res Image :=
  if truthy max_width || truthy max_height then
    let* new_size := new_dimensions (im_size img) max_width max_height in
    if negb (size_eqb new_size (im_size img))
    then resize_lanczos img new_size
    else inr img
  else inr img.

Definition flattened (img : Image) (ext : string) : Res Image :=
  if String.eqb (im_mode img) "RGBA" && PyStr.mem ext [".jpg"; ".jpeg"] then
    match split img !! 3%nat with
    | Some alpha =>
        inr (paste (new_image "RGB" (im_size img) (255, 255, 255)) img alpha)
    | None => inl (IndexError "tuple index out of range")
    end
  else inr img.

Definition save_call (ext : string) (q : Z) : image_format * save_params :=
  if String.eqb ext ".png"
  then (PNG, {| quality := None; optimize := true |})
  else (JPEG, {| quality := Some q; optimize := true |}).

(** ** script.py *)

Definition picker_formats : list string :=
  [".jpg"; ".jpeg"; ".png"; ".tiff"; ".bmp"].

(** [image_compressor(file_path, quality)] *)
Definition image_compressor (file_path : string) (q : Z) : M unit :=
  try_except
    (if existsb (fun s => PyStr.endswith s (PyStr.lower file_path)) picker_formats
     then
       do* img := Image_open file_path in
       let (base, ext) := PosixPath.splitext file_path in
       let output_path := base +:+ "_compressed" +:+ ext in
       do* _ := Image_save img output_path FromExtension
                  {| quality := Some q; optimize := true |} in
       print ("Image compressed and saved as: " +:+ output_path)
     else print "Unsupported image format!")
    (fun e => print ("Error compressing image: " +:+ exn_str e)).

(** The main block, over the function it hands the selection to.
    [selection] is what the file picker returns (the empty string when
    it is dismissed), [answer] what the quality dialog returns ([None]
    when it is cancelled); the dialog is only shown after a selection. *)
Definition script_main_with (compressor : string -> Z -> M unit)
    (selection : string) (answer : option Z) : M unit :=
  do* _ := print "Select an image file to compress" in
  if negb (String.eqb selection EmptyString) then
    match answer with
    | Some q => compressor selection q
    | None => print "Compression cancelled by user."
    end
  else print "No file selected.".

Definition script_main : string -> option Z -> M unit :=
  script_main_with image_compressor.

End Pipeline.

Arguments event {P}.
Arguments world {P}.
Arguments M {P} A.

(** What the imaging library is relied upon for: resampling keeps the
    mode, a new image has the mode asked for, pasting keeps the mode of
    the destination, and decoding a JPEG file written from an RGB image
    gives an RGB image (the format has no alpha channel). *)
Class Lawful (P : Platform) : Prop := {
  mode_resize : forall img s img',
    resize_lanczos img s = inr img' -> im_mode img' = im_mode img;
  mode_new : forall m s c, im_mode (new_image m s c) = m;
  mode_paste : forall dst src mask, im_mode (paste dst src mask) = im_mode dst;
  mode_jpeg : forall img path params fs data img',
    im_mode img = "RGB" ->
    save_outcome img path JPEG params fs = inr data ->
    decode (File data) = inr img' -> im_mode img' = "RGB"
}.

(** ** A small executable platform

    Enough of an imaging library to run the pipeline on concrete inputs:
    an image is its size and mode; a file holds the width, the height and
    a mode code (0 for RGB, 1 for RGBA, anything else for L), followed by
    what the encoder adds (a marker for PNG, the quality for JPEG). *)

Module Raster.

Record image := { size : Z * Z; mode : string }.

Definition byte_of_Z (z : Z) : Byte.byte :=
  match Byte.of_N (Z.to_N (z mod 256)) with
  | Some b => b
  | None => Byte.x00
  end.

Definition Z_of_byte (b : Byte.byte) : Z := Z.of_N (Byte.to_N b).

Definition mode_of_code (b : Byte.byte) : string :=
  match Byte.to_N b with
  | 0%N => "RGB"
  | 1%N => "RGBA"
  | _ => "L"
  end.

Definition code_of_mode (m : string) : Byte.byte :=
  if String.eqb m "RGB" then Byte.x00
  else if String.eqb m "RGBA" then Byte.x01 else Byte.x02.

Definition header (img : image) : list Byte.byte :=
  [byte_of_Z (fst (size img)); byte_of_Z (snd (size img)); code_of_mode (mode img)].

Definition read (n : node) : Res image :=
  match n with
  | File (w :: h :: m :: _) =>
      inr {| size := (Z_of_byte w, Z_of_byte h); mode := mode_of_code m |}
  | File _ => inl (OSError "cannot identify image file")
  | Directory => inl (OSError "[Errno 21] Is a directory")
  end.

Definition resize (img : image) (s : Z * Z) : Res image :=
  if (0 <? fst s)%Z && (0 <? snd s)%Z
  then inr {| size := s; mode := mode img |}
  else inl (ValueError "height and width must be > 0").

Definition bands (img : image) : list image :=
  let band := {| size := size img; mode := "L" |} in
  if String.eqb (mode img) "RGBA" then [band; band; band; band]
  else if String.eqb (mode img) "RGB" then [band; band; band]
  else [band].

Definition encode (img : image) (path : string) (fmt : image_format)
    (params : save_params) (fs : gmap string node) : Res (list Byte.byte) :=
  match fmt with
  | PNG => inr (header img ++ [Byte.x50])%list
  | JPEG =>
      if String.eqb (mode img) "RGBA"
      then inl (OSError "cannot write mode RGBA as JPEG")
      else inr (header img ++ [byte_of_Z (default 75 (quality params))])%list
  | FromExtension => inr (header img)
  end.

#[global] Instance platform : Platform := {|
  Image := image;
  im_size := size;
  im_mode := mode;
  locate := fun path => path;
  os_error := fun _ path =>
    FileNotFoundError ("[Errno 2] No such file or directory: '" +:+ path +:+ "'");
  decode := read;
  resize_lanczos := resize;
  new_image := fun m s _ => {| size := s; mode := m |};
  split := bands;
  paste := fun dst _ _ => dst;
  save_outcome := encode;
  failed_save := fun _ old =>
    match old with
    | Some _ => Some (File [])
    | None => None
    end
|}.

Definition picture (s : Z * Z) (m : string) : @Image platform :=
  {| size := s; mode := m |}.

(** A 200 by 200 opaque picture and a 200 by 200 picture with alpha. *)
Definition red_png : node := File [Byte.xc8; Byte.xc8; Byte.x00; Byte.x50].
Definition rgba_png : node := File [Byte.xc8; Byte.xc8; Byte.x01; Byte.x50].

Definition disk : gmap string node :=
  <["shots/test.png" := red_png]>
    (<["shots/test_rgba.png" := rgba_png]>
       (<["shots/test.bmp" := red_png]> ∅)).

Definition start : world := {| files := disk; log := [] |}.

End Raster.

(** ** Bounds that do not bind *)

(** A bound that is absent, zero, or not below the dimension. *)
Definition slack (bound : option Z) (dimension : Z) : Prop :=
  match bound with
  | Some b => b = 0%Z \/ (dimension <= b)%Z
  | None => True
  end.


(** The value respects the bound, if there is one. *)
Definition within (bound : option Z) (v : Z) : Prop :=
  match bound with
  | Some b => (v <= b)%Z
  | None => True
  end.

(** The bound, if there is one, is positive. *)
Definition positive_bound (bound : option Z) : Prop :=
  match bound with
  | Some b => (0 < b)%Z
  | None => True
  end.

(** The path script.py writes to. *)
Definition script_output (file_path : string) : string :=
  fst (PosixPath.splitext file_path) +:+ "_compressed"
  +:+ snd (PosixPath.splitext file_path).

(** ** The resize rule as relations *)

(** [h] is [int(x * (num / den))]; for positive operands with the ratio
    below one and the product below [2 ^ 52] that is the integer part of
    the exact quotient, or one less when the quotient is an integer. *)
Definition truncating (x num den h : Z) : Prop :=
  scaled x num den = inr h
  /\ ((0 < x)%Z -> (0 < num < den)%Z -> (den < 2 ^ 1000)%Z -> (x * num < 2 ^ 52)%Z ->
      truncated_quotient (x * num) den h).

(** What the width bound leaves of a [W] by [H] image: a bound that is
    absent, 0, or not below [W] leaves the size alone; any other bound
    becomes the width, and the height is truncated. *)
Definition width_stage (W H : Z) (max_width : option Z) (w1 h1 : Z) : Prop :=
  match max_width with
  | Some b =>
      if negb (b =? 0)%Z && (b <? W)%Z
      then w1 = b /\ truncating H b W h1
      else w1 = W /\ h1 = H
  | None => w1 = W /\ h1 = H
  end.

(** What the height bound leaves of the [w1] by [h1] size it is given. *)
Definition height_stage (w1 h1 : Z) (max_height : option Z) (w2 h2 : Z) : Prop :=
  match max_height with
  | Some b =>
      if negb (b =? 0)%Z && (b <? h1)%Z
      then h2 = b /\ truncating w1 b h1 w2
      else w2 = w1 /\ h2 = h1
  | None => w2 = w1 /\ h2 = h1
  end.

(** What the imaging library is relied upon for about sizes: resampling
    gives the size asked for, a new image has the size asked for, and
    pasting keeps the size of the destination. *)
Class SizeLawful (P : Platform) : Prop := {
  size_resize : forall img s img',
    resize_lanczos img s = inr img' -> im_size img' = s;
  size_new : forall m s c, im_size (new_image m s c) = s;
  size_paste : forall dst src mask, im_size (paste dst src mask) = im_size dst
}.

(** A path made of ASCII characters only: on such a path [PyStr.lower]
    is [str.lower]. *)
Fixpoint ascii_only (s : string) : bool :=
  match s with
  | EmptyString => true
  | String a s' => (N_of_ascii a <? 128)%N && ascii_only s'
  end.

(** ** The command line (image_compressor.py, lines 88 to 152) *)

(** [format(x, '.Nf')] for a float: the decimal with [N] digits after
    the point that is nearest to the exact binary value, ties to even. *)
Module PyFormat.

(** The decimal digits of a natural number. *)
Definition digits (n : Z) : string :=
  NilZero.string_of_uint (N.to_uint (Z.to_N n)).

Fixpoint zeros (k : nat) : string :=
  match k with
  | O => EmptyString
  | S k' => String "0" (zeros k')
  end.

(** [s.rjust(d, '0')] *)
Definition pad (d : nat) (s : string) : string :=
  zeros (d - String.length s) +:+ s.

(** The integer nearest to [p / q], ties to even, for [0 <= p], [0 < q]. *)
Definition round_half_even (p q : Z) : Z :=
  let f := (p / q)%Z in
  match (2 * (p mod q) ?= q)%Z with
  | Lt => f
  | Gt => (f + 1)%Z
  | Eq => if Z.even f then f else (f + 1)%Z
  end.

(** The digits of [n / 10 ^ d], point included. *)
Definition point (d : nat) (n : Z) : string :=
  let scale := (10 ^ Z.of_nat d)%Z in
  digits (n / scale)
  +:+ match d with
      | O => EmptyString
      | S _ => "." +:+ pad d (digits (n mod scale))
      end.

Definition fixed (d : nat) (x : spec_float) : string :=
  match x with
  | S754_nan => "nan"
  | S754_infinity s => if s then "-inf" else "inf"
  | S754_zero s => (if s then "-" else EmptyString) +:+ point d 0
  | S754_finite s m e =>
      let scale := (10 ^ Z.of_nat d)%Z in
      let n :=
        match e with
        | Zneg k => round_half_even (Z.pos m * scale) (2 ^ Z.pos k)
        | _ => (Z.pos m * 2 ^ e * scale)%Z
        end in
      (if s then "-" else EmptyString) +:+ point d n
  end.

End PyFormat.

(** The value of [reduction]: a float, or the int [0] of the [else]. *)
Inductive pynum :=
| PyInt (n : Z)
| PyFloatValue (x : spec_float).

(** [format(v, '.Nf')]: an int is converted to a float first. *)
Definition format_fixed (d : nat) (v : pynum) : Res string :=
  match v with
  | PyInt n => let* x := PyFloat.of_int n in inr (PyFormat.fixed d x)
  | PyFloatValue x => inr (PyFormat.fixed d x)
  end.

(** [x > 0] for a float [x]. *)
Definition float_positive (x : spec_float) : bool :=
  match x with
  | S754_finite false _ _ | S754_infinity false => true
  | _ => false
  end.

(** [x / y] on two floats. *)
Definition float_div (x y : spec_float) : Res spec_float :=
  match y with
  | S754_zero _ => inl (ZeroDivisionError "float division by zero")
  | _ => inr (SFdiv PyFloat.prec PyFloat.emax x y)
  end.

(** Line 138: [((o - c) / o) * 100 if o > 0 else 0]. *)
Definition reduction_of (original_size compressed_size : spec_float) : Res pynum :=
  if float_positive original_size then
    let difference := SFsub PyFloat.prec PyFloat.emax original_size compressed_size in
    let* fraction := float_div difference original_size in
    let* hundred := PyFloat.of_int 100 in
    inr (PyFloatValue (SFmul PyFloat.prec PyFloat.emax fraction hundred))
  else inr (PyInt 0).

(** The parsed arguments: what [parser.parse_args()] returns. *)
Record cli_args := {
  arg_input : string;
  arg_output : option string;
  arg_quality : Z;
  arg_max_width : option Z;
  arg_max_height : option Z
}.

(** The two output streams. *)
Record console := { stdout : list string; stderr : list string }.

Definition to_stdout (lines : list string) (c : console) : console :=
  {| stdout := stdout c ++ lines; stderr := stderr c |}.

Definition to_stderr (line : string) (c : console) : console :=
  {| stdout := stdout c; stderr := stderr c ++ [line] |}.

(** The first line printed on success, with the bytes the source file
    has before the word Image. *)
Definition success_line : string := "âœ“ Image compressed successfully!".

Section CommandLine.

Context `{P : Platform}.

(** The size [os.path.getsize] reports for a directory. *)
Variable directory_size : Z.

(** [os.path.getsize(path)] *)
Definition os_path_getsize (path : string) : M Z :=
  fun w =>
    match files w !! locate path with
    | Some (File data) => (inr (Z.of_nat (List.length data)), w)
    | Some Directory => (inr directory_size, w)
    | None => (inl (os_error (files w) path), w)
    end.

(** [get_file_size_mb(file_path)] *)
Definition get_file_size_mb (file_path : string) : M spec_float :=
  bind (os_path_getsize file_path)
    (fun n => lift (PyFloat.truediv n (1024 * 1024))).

(** Lines 121 to 144: the body of the [try], up to the lines it prints. *)
Definition main_body (args : cli_args) : M (list string) :=
  bind (get_file_size_mb (arg_input args)) (fun original_size =>
  bind (compress_image (arg_input args) (arg_output args) (arg_quality args)
          (arg_max_width args) (arg_max_height args)) (fun output_path =>
  bind (get_file_size_mb output_path) (fun compressed_size =>
  bind (lift (reduction_of original_size compressed_size)) (fun reduction =>
  bind (lift (format_fixed 2 (PyFloatValue original_size))) (fun original_text =>
  bind (lift (format_fixed 2 (PyFloatValue compressed_size))) (fun compressed_text =>
  bind (lift (format_fixed 1 reduction)) (fun reduction_text =>
  ret [success_line;
       "  Input:  " +:+ arg_input args +:+ " (" +:+ original_text +:+ " MB)";
       "  Output: " +:+ output_path +:+ " (" +:+ compressed_text +:+ " MB)";
       "  Size reduction: " +:+ reduction_text +:+ "%"]))))))).

(** [main()] once [parser.parse_args()] has returned [args]: the exit
    status, the world and the console it leaves. *)
Definition main (args : cli_args) (w : world) (c : console)
  : Z * world * console :=
  if (arg_quality args <? 1)%Z || (100 <? arg_quality args)%Z
  then (1%Z, w, to_stderr "Error: Quality must be between 1 and 100" c)
  else
    match main_body args w with
    | (inr lines, w') => (0%Z, w', to_stdout lines c)
    | (inl e, w') => (1%Z, w', to_stderr ("Error: " +:+ exn_str e) c)
    end.



End CommandLine.

(** The command line on the sample disk. *)
Definition sample_args (input : string) (q : Z) : cli_args :=
  {| arg_input := input; arg_output := None; arg_quality := q;
     arg_max_width := Some 100%Z; arg_max_height := None |}.

Definition quiet : console := {| stdout := []; stderr := [] |}.


(** * Properties *)

(** ** Strings and paths *)

Lemma lower_ascii_eqb_slash a : Ascii.eqb (PyStr.lower_ascii a) "/" = Ascii.eqb a "/".
Proof. destruct a as [[] [] [] [] [] [] [] []]; reflexivity. Qed.

Lemma lower_ascii_eqb_dot a : Ascii.eqb (PyStr.lower_ascii a) "." = Ascii.eqb a ".".
Proof. destruct a as [[] [] [] [] [] [] [] []]; reflexivity. Qed.

Lemma lower_ascii_idem a : PyStr.lower_ascii (PyStr.lower_ascii a) = PyStr.lower_ascii a.
Proof. destruct a as [[] [] [] [] [] [] [] []]; reflexivity. Qed.

Lemma lower_idem s : PyStr.lower (PyStr.lower s) = PyStr.lower s.
Proof.
  induction s as [|a s IH]; simpl; [reflexivity | ].
  now rewrite lower_ascii_idem, IH.
Qed.

Lemma lower_length s : String.length (PyStr.lower s) = String.length s.
Proof. induction s as [|a s IH]; simpl; congruence. Qed.

Lemma lower_drop i s : PyStr.drop i (PyStr.lower s) = PyStr.lower (PyStr.drop i s).
Proof.
  revert s. induction i as [|i IH]; intros s; [reflexivity | ].
  destruct s as [|a s]; simpl; [reflexivity | apply IH].
Qed.

Lemma lower_rfind_dot s : PyStr.rfind "." (PyStr.lower s) = PyStr.rfind "." s.
Proof.
  induction s as [|a s IH]; simpl; [reflexivity | ].
  rewrite IH, lower_ascii_eqb_dot. reflexivity.
Qed.

Lemma lower_split s :
  PyStr.split "/" (PyStr.lower s) = map PyStr.lower (PyStr.split "/" s).
Proof.
  induction s as [|a s IH]; simpl; [reflexivity | ].
  rewrite lower_ascii_eqb_slash, IH.
  destruct (Ascii.eqb a "/"); [reflexivity | ].
  destruct (PyStr.split "/" s); reflexivity.
Qed.

Lemma lower_keep_part x : PurePath.keep_part (PyStr.lower x) = PurePath.keep_part x.
Proof.
  unfold PurePath.keep_part.
  destruct x as [|a [|b x]]; simpl; try reflexivity.
  - rewrite lower_ascii_eqb_dot. reflexivity.
  - rewrite lower_ascii_eqb_dot. reflexivity.
Qed.

Lemma lower_filter_parts l :
  List.filter PurePath.keep_part (map PyStr.lower l)
  = map PyStr.lower (List.filter PurePath.keep_part l).
Proof.
  induction l as [|x l IH]; [reflexivity | ].
  cbn [List.filter map]. rewrite lower_keep_part, IH.
  destruct (PurePath.keep_part x); reflexivity.
Qed.

Lemma last_map {A B} (f : A -> B) l d : List.last (map f l) (f d) = f (List.last l d).
Proof.
  induction l as [|x l IH]; [reflexivity | ].
  destruct l; [reflexivity | exact IH].
Qed.

Lemma lower_name s :
  PurePath.name (PurePath.parse (PyStr.lower s))
  = PyStr.lower (PurePath.name (PurePath.parse s)).
Proof.
  unfold PurePath.name, PurePath.parse; simpl.
  rewrite lower_split, lower_filter_parts.
  apply (last_map PyStr.lower _ EmptyString).
Qed.

Lemma lower_suffix s :
  PurePath.suffix (PurePath.parse (PyStr.lower s))
  = PyStr.lower (PurePath.suffix (PurePath.parse s)).
Proof.
  unfold PurePath.suffix. rewrite lower_name, lower_rfind_dot, lower_length.
  destruct (PyStr.rfind "." _) as [i|]; [ | reflexivity].
  destruct (_ && _); [apply lower_drop | reflexivity].
Qed.

(** The lower-cased extension does not depend on the case of the path. *)
Lemma lower_suffix_case_insensitive s :
  PyStr.lower (PurePath.suffix (PurePath.parse (PyStr.lower s)))
  = PyStr.lower (PurePath.suffix (PurePath.parse s)).
Proof. rewrite lower_suffix. apply lower_idem. Qed.

Lemma has_char_append c a b :
  PyStr.has_char c (a +:+ b) = PyStr.has_char c a || PyStr.has_char c b.
Proof.
  induction a as [|x a IH]; simpl; [reflexivity | ].
  rewrite IH. apply orb_assoc.
Qed.

Lemma has_char_take c i s :
  PyStr.has_char c s = false -> PyStr.has_char c (PyStr.take i s) = false.
Proof.
  revert s. induction i as [|i IH]; intros [|a s]; simpl; try reflexivity.
  intros H. apply orb_false_iff in H as [Ha Hs].
  rewrite Ha. simpl. auto.
Qed.

Lemma has_char_drop c i s :
  PyStr.has_char c s = false -> PyStr.has_char c (PyStr.drop i s) = false.
Proof.
  revert s. induction i as [|i IH]; intros [|a s]; simpl; try tauto.
  intros H. apply orb_false_iff in H as [_ Hs]. auto.
Qed.

Lemma split_no_sep c s : Forall (fun x => PyStr.has_char c x = false) (PyStr.split c s).
Proof.
  induction s as [|a s IH]; simpl.
  - repeat constructor.
  - destruct (Ascii.eqb a c) eqn:E.
    + constructor; [reflexivity | exact IH].
    + destruct (PyStr.split c s) as [|x l].
      * repeat constructor. simpl. now rewrite E.
      * inversion IH; subst. constructor; [ | assumption].
        simpl. now rewrite E.
Qed.

Lemma split_free c s : PyStr.has_char c s = false -> PyStr.split c s = [s].
Proof.
  induction s as [|a s IH]; simpl; [reflexivity | ].
  intros H. apply orb_false_iff in H as [Ha Hs].
  rewrite Ha, (IH Hs). reflexivity.
Qed.

Lemma last_Forall {A} (Q : A -> Prop) l d : Forall Q l -> Q d -> Q (List.last l d).
Proof.
  induction 1 as [|x l Hx Hl IH]; intros Hd; [exact Hd | ].
  destruct l; [exact Hx | apply IH, Hd].
Qed.

Lemma Forall_filter {A} (Q : A -> Prop) f l : Forall Q l -> Forall Q (List.filter f l).
Proof.
  induction 1 as [|x l Hx Hl IH]; simpl; [constructor | ].
  destruct (f x); [constructor | ]; assumption.
Qed.

Lemma name_no_slash s : PyStr.has_char "/" (PurePath.name (PurePath.parse s)) = false.
Proof.
  unfold PurePath.name, PurePath.parse; simpl.
  apply (last_Forall (fun x => PyStr.has_char "/" x = false)); [ | reflexivity].
  apply Forall_filter, split_no_sep.
Qed.

Lemma suffix_no_slash p :
  PyStr.has_char "/" (PurePath.name p) = false ->
  PyStr.has_char "/" (PurePath.suffix p) = false.
Proof.
  intros H. unfold PurePath.suffix.
  destruct (PyStr.rfind "." _) as [i|]; [ | reflexivity].
  destruct (_ && _); [now apply has_char_drop | reflexivity].
Qed.

Lemma stem_no_slash p :
  PyStr.has_char "/" (PurePath.name p) = false ->
  PyStr.has_char "/" (PurePath.stem p) = false.
Proof.
  intros H. unfold PurePath.stem.
  destruct (PyStr.rfind "." _) as [i|]; [ | exact H].
  destruct (_ && _); [now apply has_char_take | exact H].
Qed.

Lemma append_length a b :
  String.length (a +:+ b) = (String.length a + String.length b)%nat.
Proof. induction a as [|x a IH]; simpl; [reflexivity | now rewrite IH]. Qed.

Lemma keep_part_long x : (2 <= String.length x)%nat -> PurePath.keep_part x = true.
Proof.
  destruct x as [|a [|b x]]; simpl; try lia. intros _.
  unfold PurePath.keep_part. simpl.
  destruct (Ascii.eqb a "."); reflexivity.
Qed.

Lemma parse_single x :
  PyStr.has_char "/" x = false -> (2 <= String.length x)%nat ->
  PurePath.parse x = PurePath.mk EmptyString [x].
Proof.
  intros Hfree Hlen. unfold PurePath.parse.
  rewrite (split_free _ _ Hfree). simpl. rewrite (keep_part_long _ Hlen).
  f_equal. unfold PurePath.parse_root, PyStr.startswith.
  destruct x as [|a x]; [reflexivity | ].
  simpl in Hfree. apply orb_false_iff in Hfree as [Ha _].
  cbn [String.prefix]. destruct (ascii_dec "/" a) as [<-|]; [discriminate | reflexivity].
Qed.

(** The derived output path: the components of the input's parent, then
    the single component [{stem}_compressed{suffix}]. *)
Lemma derived_path_parts (input_path : string) :
  let input_file := PurePath.parse input_path in
  derived_path input_path
  = PurePath.mk (PurePath.root input_file)
      (removelast (PurePath.parts input_file)
       ++ [PurePath.stem input_file +:+ "_compressed" +:+ PurePath.suffix input_file]).
Proof.
  intros input_file. unfold derived_path. fold input_file.
  unfold PurePath.joinpath. rewrite parse_single; [reflexivity | | ].
  - rewrite !has_char_append.
    rewrite stem_no_slash, suffix_no_slash by apply name_no_slash. reflexivity.
  - rewrite !append_length. simpl. lia.
Qed.

(** ** The pipeline, step by step *)

Ltac unfold_M :=
  unfold bind, ret, raise, lift, try_except, print, emit in *.

Section Steps.

Context `{P : Platform}.

Implicit Types (w : world) (img : Image) (q : Z).

Lemma exists_true w path n :
  files w !! locate path = Some n -> os_path_exists path w = (inr true, w).
Proof.
  intros H. unfold os_path_exists. rewrite H.
  rewrite bool_decide_eq_true_2; [reflexivity | eauto].
Qed.

Lemma exists_false w path :
  files w !! locate path = None -> os_path_exists path w = (inr false, w).
Proof.
  intros H. unfold os_path_exists. rewrite H.
  rewrite bool_decide_eq_false_2; [reflexivity | ].
  intros [x Hx]. discriminate.
Qed.

Lemma resize_step_pure img mw mh w :
  resize_step img mw mh w = (resized img mw mh, w).
Proof.
  unfold resize_step, resized. unfold_M.
  destruct (truthy mw || truthy mh); [ | reflexivity].
  destruct (new_dimensions (im_size img) mw mh) as [e|s]; [reflexivity | ].
  simpl. destruct (negb (size_eqb s (im_size img))); reflexivity.
Qed.

Lemma flatten_step_pure img ext w :
  flatten_step img ext w = (flattened img ext, w).
Proof.
  unfold flatten_step, flattened. unfold_M.
  destruct (_ && _); [ | reflexivity].
  destruct (split img !! 3%nat); reflexivity.
Qed.

Lemma save_step_call img out ext q w :
  save_step img out ext q w
  = match Image_save img out (fst (save_call ext q)) (snd (save_call ext q)) w with
    | (inl e, w') =>
        (inl (ValueError ("Error saving compressed image: " +:+ exn_str e)), w')
    | (inr u, w') => (inr u, w')
    end.
Proof.
  unfold save_step, save_call, try_except, raise.
  destruct (String.eqb ext ".png"); reflexivity.
Qed.

(** What a call that got past the two checks does. *)
Lemma compress_image_checked w input_path output_path q mw mh n :
  files w !! locate input_path = Some n ->
  PyStr.mem (file_ext input_path) supported_formats = true ->
  compress_image input_path output_path q mw mh w
  = let w1 := emit (EvOpen input_path) w in
    let out := resolved_str input_path output_path in
    let ext := output_ext input_path output_path in
    match decode n with
    | inl e => (inl (ValueError ("Error opening image: " +:+ exn_str e)), w1)
    | inr img0 =>
        match resized img0 mw mh with
        | inl e => (inl e, w1)
        | inr img1 =>
            match flattened img1 ext with
            | inl e => (inl e, w1)
            | inr img2 =>
                match save_step img2 out ext q w1 with
                | (inl e, w2) => (inl e, w2)
                | (inr _, w2) => (inr out, w2)
                end
            end
        end
    end.
Proof.
  intros Hn Hext. unfold compress_image. unfold bind at 1.
  rewrite (exists_true _ _ _ Hn). cbn [negb]. rewrite Hext. cbn [negb].
  unfold bind at 1. unfold open_step, try_except, Image_open. rewrite Hn.
  destruct (decode n) as [e|img0]; [reflexivity | ].
  unfold bind at 1. rewrite resize_step_pure.
  destruct (resized img0 mw mh) as [e|img1]; [reflexivity | ].
  unfold bind at 1. rewrite flatten_step_pure.
  destruct (flattened img1 _) as [e|img2]; [reflexivity | ].
  unfold bind, ret.
  destruct (save_step img2 _ _ q _) as [[e|u] w2]; reflexivity.
Qed.

(** Only the destination can change. *)
Lemma Image_save_frame img path fmt params w k :
  k <> locate path ->
  files (snd (Image_save img path fmt params w)) !! k = files w !! k.
Proof.
  intros Hk. unfold Image_save.
  destruct (save_outcome img path fmt params (files w)); simpl.
  - apply lookup_partial_alter_ne. congruence.
  - apply lookup_insert_ne. congruence.
Qed.

Lemma save_step_frame img out ext q w k :
  k <> locate out ->
  files (snd (save_step img out ext q w)) !! k = files w !! k.
Proof.
  intros Hk. rewrite save_step_call.
  pose proof (Image_save_frame img out (fst (save_call ext q))
                (snd (save_call ext q)) w k Hk) as H.
  destruct (Image_save _ _ _ _ w) as [[e|u] w']; exact H.
Qed.

Lemma compress_image_frame w input_path output_path q mw mh k :
  k <> locate (resolved_str input_path output_path) ->
  files (snd (compress_image input_path output_path q mw mh w)) !! k
  = files w !! k.
Proof.
  intros Hk.
  destruct (files w !! locate input_path) as [n|] eqn:Hn.
  - destruct (PyStr.mem (file_ext input_path) supported_formats) eqn:Hext.
    + rewrite (compress_image_checked _ _ _ _ _ _ _ Hn Hext). cbv zeta.
      destruct (decode n) as [e|img0]; [reflexivity | ].
      destruct (resized img0 mw mh) as [e|img1]; [reflexivity | ].
      destruct (flattened img1 _) as [e|img2]; [reflexivity | ].
      pose proof (save_step_frame img2 (resolved_str input_path output_path)
                    (output_ext input_path output_path) q
                    (emit (EvOpen input_path) w) k Hk) as H.
      destruct (save_step img2 _ _ q _) as [[e|u] w2]; exact H.
    + unfold compress_image, bind. rewrite (exists_true _ _ _ Hn).
      cbn [negb]. rewrite Hext. reflexivity.
  - unfold compress_image, bind. rewrite (exists_false _ _ Hn). reflexivity.
Qed.

End Steps.

Lemma Raster_lawful : Lawful Raster.platform.
Proof.
  split.
  - intros img s img'. cbn. unfold Raster.resize.
    destruct (_ && _); [ | discriminate]. intros [= <-]. reflexivity.
  - reflexivity.
  - reflexivity.
  - intros img path params fs data img' Hm. cbn in *. unfold Raster.encode.
    rewrite Hm. cbn. intros [= <-]. cbn. intros [= <-]. reflexivity.
Qed.

(** ** Validation *)

Section Validation.

Context `{P : Platform}.

Implicit Types (w : world) (q : Z).

(** C7: a path that leads nowhere raises [FileNotFoundError], whatever
    its extension and the other arguments are: the existence test comes
    before the extension test, and the world is left as it was. *)
Theorem missing_input_raises_not_found
    w (input_path : string) (output_path : option string) q
    (max_width max_height : option Z) :
  files w !! locate input_path = None ->
  compress_image input_path output_path q max_width max_height w
  = (inl (FileNotFoundError ("Input file not found: " +:+ input_path)), w).
Proof.
  intros H. unfold compress_image, bind.
  rewrite (exists_false _ _ H). reflexivity.
Qed.

(** C6: for an existing input whose lower-cased extension is not one of
    .png, .jpg, .jpeg, the call raises [ValueError] with a message that
    contains "Unsupported file format"; no file is opened or written
    (the world, event log included, is unchanged).  The extension test
    does not depend on the letter case of the path, and .PNG passes. *)
Theorem unsupported_extension_rejected
    w (input_path : string) (output_path : option string) q
    (max_width max_height : option Z) (n : node) :
  files w !! locate input_path = Some n ->
  PyStr.mem (file_ext input_path) supported_formats = false ->
  (exists msg,
      compress_image input_path output_path q max_width max_height w
      = (inl (ValueError msg), w)
      /\ PyStr.contains "Unsupported file format" msg)
  /\ (forall other, PyStr.lower other = PyStr.lower input_path ->
                    file_ext other = file_ext input_path)
  /\ PyStr.mem (file_ext "photo.PNG") supported_formats = true.
Proof.
  intros Hn Hext. split; [ | split].
  - eexists. split.
    + unfold compress_image, bind. rewrite (exists_true _ _ _ Hn).
      cbn [negb]. rewrite Hext. reflexivity.
    + exists EmptyString. eexists. reflexivity.
  - intros other Hlow. unfold file_ext.
    rewrite <- (lower_suffix_case_insensitive other), Hlow.
    apply lower_suffix_case_insensitive.
  - reflexivity.
Qed.

End Validation.

Lemma missing_input_raises_not_found_witness :
  files Raster.start !! locate "shots/none.bmp" = None
  /\ compress_image "shots/none.bmp" None 85 None None Raster.start
     = (inl (FileNotFoundError "Input file not found: shots/none.bmp"), Raster.start).
Proof.
  split; [reflexivity | ].
  apply (missing_input_raises_not_found Raster.start "shots/none.bmp" None 85 None None).
  reflexivity.
Defined.

Lemma unsupported_extension_rejected_witness :
  exists msg,
    compress_image "shots/test.bmp" None 85 None None Raster.start
    = (inl (ValueError msg), Raster.start)
    /\ PyStr.contains "Unsupported file format" msg.
Proof.
  apply (unsupported_extension_rejected Raster.start "shots/test.bmp" None 85
           None None Raster.red_png); reflexivity.
Defined.

(** ** Output path, flattening and encoding *)

Section Output.

Context `{P : Platform}.

Implicit Types (w : world) (img : Image) (q : Z).

Lemma Image_save_ok img path fmt params w w' :
  Image_save img path fmt params w = (inr tt, w') ->
  exists data,
    save_outcome img path fmt params (files w) = inr data
    /\ w' = {| files := <[locate path := File data]> (files w);
               log := (log w ++ [EvSave img path fmt params])%list |}.
Proof.
  unfold Image_save.
  destruct (save_outcome img path fmt params (files w)) as [e|data];
    intros [= <-]. eauto.
Qed.

(** A successful call, taken apart. *)
Lemma compress_image_ok w input_path output_path q mw mh p w' :
  compress_image input_path output_path q mw mh w = (inr p, w') ->
  exists n img0 img1 img2 data,
    files w !! locate input_path = Some n
    /\ decode n = inr img0
    /\ resized img0 mw mh = inr img1
    /\ flattened img1 (output_ext input_path output_path) = inr img2
    /\ p = resolved_str input_path output_path
    /\ save_outcome img2 p (fst (save_call (output_ext input_path output_path) q))
         (snd (save_call (output_ext input_path output_path) q)) (files w)
       = inr data
    /\ w' = {| files := <[locate p := File data]> (files w);
               log := (log w ++
                       [EvOpen input_path;
                        EvSave img2 p
                          (fst (save_call (output_ext input_path output_path) q))
                          (snd (save_call (output_ext input_path output_path) q))])%list |}.
Proof.
  destruct (files w !! locate input_path) as [n|] eqn:Hn.
  2:{ unfold compress_image, bind. rewrite (exists_false _ _ Hn). discriminate. }
  destruct (PyStr.mem (file_ext input_path) supported_formats) eqn:Hext.
  2:{ unfold compress_image, bind. rewrite (exists_true _ _ _ Hn).
      cbn [negb]. rewrite Hext. discriminate. }
  rewrite (compress_image_checked _ _ _ _ _ _ _ Hn Hext). cbv zeta.
  destruct (decode n) as [e|img0] eqn:Hd; [discriminate | ].
  destruct (resized img0 mw mh) as [e|img1] eqn:Hr; [discriminate | ].
  destruct (flattened img1 _) as [e|img2] eqn:Hf; [discriminate | ].
  rewrite save_step_call.
  destruct (Image_save img2 _ _ _ _) as [[e|[]] w2] eqn:Hs; [discriminate | ].
  intros [= <- <-].
  apply Image_save_ok in Hs as (data & Ho & ->).
  exists n, img0, img1, img2, data.
  repeat split; try assumption.
  cbn. rewrite <- app_assoc. reflexivity.
Qed.

(** C8: a call that returns gives back the resolved output path: the
    explicit output path as it was passed, and otherwise the path made
    of the components of the input's parent followed by the component
    [{stem}_compressed{suffix}], stem and suffix being those of the
    input; a file is at that path afterwards. *)
Theorem compress_returns_resolved_path
    w (input_path : string) (output_path : option string) q
    (max_width max_height : option Z) (p : string) w' :
  compress_image input_path output_path q max_width max_height w = (inr p, w') ->
  p = match output_path with
      | Some s => s
      | None =>
          let input_file := PurePath.parse input_path in
          PurePath.to_str
            (PurePath.mk (PurePath.root input_file)
               (removelast (PurePath.parts input_file)
                ++ [PurePath.stem input_file +:+ "_compressed"
                    +:+ PurePath.suffix input_file]))
      end
  /\ exists data, files w' !! locate p = Some (File data).
Proof.
  intros H. apply compress_image_ok in H
    as (n & img0 & img1 & img2 & data & _ & _ & _ & _ & -> & _ & ->).
  split.
  - destruct output_path as [s|]; [reflexivity | ].
    cbn [resolved_str]. now rewrite derived_path_parts.
  - exists data. cbn. apply lookup_insert_eq.
Qed.

(** C3, as the code has it: in every call, failing ones included, no
    file changes but the one the resolved output path denotes; so the
    input file keeps its contents whenever the resolved output path does
    not denote it.  When the resolved output path does denote the input
    file, a call that returns has replaced the input file by the encoded
    result.  A call that raises anything but the error of the save step
    leaves every file as it was. *)
Theorem compress_writes_only_output
    w (input_path : string) (output_path : option string) q
    (max_width max_height : option Z) :
  let r := compress_image input_path output_path q max_width max_height w in
  let out := resolved_str input_path output_path in
  (forall k, k <> locate out -> files (snd r) !! k = files w !! k)
  /\ (locate out <> locate input_path ->
      files (snd r) !! locate input_path = files w !! locate input_path)
  /\ (forall p, fst r = inr p -> locate out = locate input_path ->
      exists img fmt params data,
        save_outcome img p fmt params (files w) = inr data
        /\ files (snd r) !! locate input_path = Some (File data))
  /\ (forall e, fst r = inl e ->
      (forall msg, e <> ValueError ("Error saving compressed image: " +:+ msg)) ->
      files (snd r) = files w).
Proof.
  cbv zeta. split; [ | split; [ | split]].
  - intros k Hk. now apply compress_image_frame.
  - intros Hne. apply compress_image_frame. congruence.
  - intros p Hp Hsame.
    destruct (compress_image input_path output_path q max_width max_height w)
      as [r w'] eqn:Hc.
    cbn [fst snd] in *. subst r.
    apply compress_image_ok in Hc
      as (n & img0 & img1 & img2 & data & _ & _ & _ & _ & -> & Hs & ->).
    eexists img2, _, _, data. split; [exact Hs | ].
    cbn [files]. rewrite <- Hsame. apply lookup_insert_eq.
  - intros e He Hnot.
    destruct (files w !! locate input_path) as [n|] eqn:Hn.
    2:{ unfold compress_image, bind. rewrite (exists_false _ _ Hn). reflexivity. }
    destruct (PyStr.mem (file_ext input_path) supported_formats) eqn:Hext.
    2:{ unfold compress_image, bind. rewrite (exists_true _ _ _ Hn).
        cbn [negb]. rewrite Hext. reflexivity. }
    rewrite (compress_image_checked _ _ _ _ _ _ _ Hn Hext) in *. cbv zeta in *.
    destruct (decode n) as [e0|img0]; [reflexivity | ].
    destruct (resized img0 _ _) as [e0|img1]; [reflexivity | ].
    destruct (flattened img1 _) as [e0|img2]; [reflexivity | ].
    rewrite save_step_call in *.
    destruct (Image_save img2 _ _ _ _) as [[e0|u] w2]; cbn [fst] in He.
    + injection He as <-. exfalso. eapply Hnot. reflexivity.
    + discriminate.
Qed.


(** C10: whatever the extension of the resolved output path is, as
    long as its lower-cased form is not .png (an extension outside the
    input set, or none at all), [compress_image] saves the image that
    comes out of the resize and flattening steps with the JPEG encoder,
    the quality given and the optimize flag, to the resolved output
    path: it returns that path when the encoder succeeds, and raises
    [ValueError] with the encoder's message exactly when the encoder
    raises.  There is no other outcome. *)
Theorem non_png_extension_uses_jpeg
    w (input_path : string) (output_path : option string) q
    (max_width max_height : option Z) (n : node) (img0 img1 img2 : Image) :
  let w1 := emit (EvOpen input_path) w in
  let path := resolved_str input_path output_path in
  let params := {| quality := Some q; optimize := true |} in
  files w !! locate input_path = Some n ->
  PyStr.mem (file_ext input_path) supported_formats = true ->
  decode n = inr img0 ->
  resize_step img0 max_width max_height w1 = (inr img1, w1) ->
  flatten_step img1 (output_ext input_path output_path) w1 = (inr img2, w1) ->
  output_ext input_path output_path <> ".png" ->
  compress_image input_path output_path q max_width max_height w
  = match save_outcome img2 path JPEG params (files w) with
    | inr data =>
        (inr path,
         {| files := <[locate path := File data]> (files w);
            log := (log w ++ [EvOpen input_path; EvSave img2 path JPEG params])%list |})
    | inl e =>
        (inl (ValueError ("Error saving compressed image: " +:+ exn_str e)),
         {| files := partial_alter (failed_save e) (locate path) (files w);
            log := (log w ++ [EvOpen input_path; EvSave img2 path JPEG params])%list |})
    end.
Proof.
  intros w1 path params Hn Hext Hd Hr Hf Hpng.
  rewrite (compress_image_checked _ _ _ _ _ _ _ Hn Hext). cbv zeta.
  rewrite Hd.
  rewrite resize_step_pure in Hr. injection Hr as Hr. rewrite Hr.
  rewrite flatten_step_pure in Hf. injection Hf as Hf. rewrite Hf.
  rewrite save_step_call. unfold save_call.
  destruct (String.eqb_spec (output_ext input_path output_path) ".png") as [E|_];
    [contradiction | ].
  cbn [fst snd]. unfold Image_save. fold path params.
  destruct (save_outcome img2 path JPEG params _); cbn; rewrite <- app_assoc;
    reflexivity.
Qed.

(** C5: when the decoded image is RGBA and the resolved output path has
    the extension .jpg or .jpeg (lower-cased), a call that returns has
    encoded, as JPEG, the paste of the (possibly resized) image onto a
    new white RGB image of the same size with the alpha band as mask;
    that image is RGB, and so is what the written file decodes to. *)
Theorem rgba_to_jpeg_is_flattened
    `{L : !Lawful P}
    w (input_path : string) (output_path : option string) q
    (max_width max_height : option Z) (n : node) (img0 : Image)
    (p : string) w' :
  files w !! locate input_path = Some n ->
  decode n = inr img0 ->
  im_mode img0 = "RGBA" ->
  PyStr.mem (output_ext input_path output_path) [".jpg"; ".jpeg"] = true ->
  compress_image input_path output_path q max_width max_height w = (inr p, w') ->
  exists img1 alpha data,
    resized img0 max_width max_height = inr img1
    /\ split img1 !! 3%nat = Some alpha
    /\ let flat := paste (new_image "RGB" (im_size img1) (255, 255, 255)) img1 alpha in
       let params := {| quality := Some q; optimize := true |} in
       im_mode flat = "RGB"
       /\ log w' = (log w ++ [EvOpen input_path; EvSave flat p JPEG params])%list
       /\ save_outcome flat p JPEG params (files w) = inr data
       /\ files w' !! locate p = Some (File data)
       /\ forall img', decode (File data) = inr img' -> im_mode img' = "RGB".
Proof.
  intros Hn Hd Hmode Hext H.
  apply compress_image_ok in H
    as (n' & i0 & img1 & img2 & data & Hn' & Hd' & Hr & Hf & -> & Hs & ->).
  rewrite Hn in Hn'. injection Hn' as <-. rewrite Hd in Hd'. injection Hd' as <-.
  assert (Hm1 : im_mode img1 = "RGBA").
  { unfold resized in Hr. destruct (_ || _); [ | congruence].
    destruct (new_dimensions _ _ _) as [e|s]; [discriminate | ]. cbn in Hr.
    destruct (negb _); [ | congruence].
    rewrite (mode_resize _ _ _ Hr). exact Hmode. }
  unfold flattened in Hf. rewrite Hm1, Hext in Hf. cbn [String.eqb andb] in Hf.
  change ("RGBA" =? "RGBA")%string with true in Hf. cbn [andb] in Hf.
  destruct (split img1 !! 3%nat) as [alpha|] eqn:Ha; [ | discriminate].
  injection Hf as <-.
  assert (Hpng : save_call (output_ext input_path output_path) q
                 = (JPEG, {| quality := Some q; optimize := true |})).
  { unfold save_call.
    destruct (String.eqb_spec (output_ext input_path output_path) ".png") as [E|_];
      [ | reflexivity].
    rewrite E in Hext. discriminate. }
  rewrite Hpng in *. cbn [fst snd] in *.
  exists img1, alpha, data. split; [exact Hr | ]. split; [exact Ha | ].
  assert (Hflat : im_mode (paste (new_image "RGB" (im_size img1) (255, 255, 255))
                             img1 alpha) = "RGB").
  { now rewrite mode_paste, mode_new. }
  cbv zeta. repeat split.
  - exact Hflat.
  - exact Hs.
  - cbn. apply lookup_insert_eq.
  - intros img' Hdec. exact (mode_jpeg _ _ _ _ _ _ Hflat Hs Hdec).
Qed.

End Output.

Lemma compress_returns_resolved_path_witness :
  exists w',
    compress_image "shots/test.png" None 85 None None Raster.start
    = (inr "shots/test_compressed.png", w')
    /\ exists data, files w' !! locate "shots/test_compressed.png" = Some (File data).
Proof.
  exists (snd (compress_image "shots/test.png" None 85 None None Raster.start)).
  assert (H : compress_image "shots/test.png" None 85 None None Raster.start
              = (inr "shots/test_compressed.png",
                 snd (compress_image "shots/test.png" None 85 None None Raster.start)))
    by (vm_compute; reflexivity).
  split; [exact H | ].
  apply (compress_returns_resolved_path Raster.start "shots/test.png" None 85
           None None _ _ H).
Defined.

Lemma compress_writes_only_output_witness :
  files (snd (compress_image "shots/test.png" None 85 (Some 100) None Raster.start))
    !! locate "shots/test.png"
  = files Raster.start !! locate "shots/test.png".
Proof.
  refine (proj1 (proj2 (compress_writes_only_output Raster.start "shots/test.png"
                          None 85 (Some 100) None)) _).
  vm_compute. discriminate.
Defined.

(** C3, as the spec has it, fails: with the input path passed as output
    path the input file is overwritten (here by the resized picture). *)
Lemma input_file_overwritten :
  let w' := snd (compress_image "shots/test.png" (Some "shots/test.png") 85
                   (Some 100) None Raster.start) in
  files Raster.start !! locate "shots/test.png"
  = Some (File [Byte.xc8; Byte.xc8; Byte.x00; Byte.x50])
  /\ files w' !! locate "shots/test.png"
     = Some (File [Byte.x64; Byte.x64; Byte.x00; Byte.x50])
  /\ files w' !! locate "shots/test.png" <> files Raster.start !! locate "shots/test.png".
Proof.
  cbv zeta. split; [reflexivity | ]. split; [reflexivity | ].
  vm_compute. discriminate.
Qed.


Lemma non_png_extension_uses_jpeg_witness :
  compress_image "shots/test.png" (Some "shots/copy.gif") 40 None None Raster.start
  = (inr "shots/copy.gif",
     {| files := <["shots/copy.gif" := File [Byte.xc8; Byte.xc8; Byte.x00; Byte.x28]]>
                   Raster.disk;
        log := [EvOpen "shots/test.png";
                EvSave (Raster.picture (200, 200) "RGB") "shots/copy.gif" JPEG
                  {| quality := Some 40; optimize := true |}] |})
  /\ fst (compress_image "shots/test_rgba.png" (Some "shots/copy") 40 None None
            Raster.start)
     = inl (ValueError "Error saving compressed image: cannot write mode RGBA as JPEG").
Proof.
  split.
  - apply (non_png_extension_uses_jpeg Raster.start "shots/test.png"
             (Some "shots/copy.gif") 40 None None Raster.red_png
             (Raster.picture (200, 200) "RGB") (Raster.picture (200, 200) "RGB")
             (Raster.picture (200, 200) "RGB"));
      try reflexivity. discriminate.
  - rewrite (non_png_extension_uses_jpeg Raster.start "shots/test_rgba.png"
               (Some "shots/copy") 40 None None Raster.rgba_png
               (Raster.picture (200, 200) "RGBA") (Raster.picture (200, 200) "RGBA")
               (Raster.picture (200, 200) "RGBA"));
      try reflexivity. discriminate.
Defined.

Lemma rgba_to_jpeg_is_flattened_witness :
  exists img1 alpha data,
    resized (Raster.picture (200, 200) "RGBA") (Some 100) None = inr img1
    /\ split img1 !! 3%nat = Some alpha
    /\ im_mode (paste (new_image "RGB" (im_size img1) (255, 255, 255)) img1 alpha)
       = "RGB"
    /\ data = [Byte.x64; Byte.x64; Byte.x00; Byte.x46].
Proof.
  destruct (rgba_to_jpeg_is_flattened (L := Raster_lawful) Raster.start
              "shots/test_rgba.png" (Some "out/flat.JPG") 70 (Some 100) None
              Raster.rgba_png (Raster.picture (200, 200) "RGBA")
              "out/flat.JPG"
              (snd (compress_image "shots/test_rgba.png" (Some "out/flat.JPG") 70
                      (Some 100) None Raster.start))
              eq_refl eq_refl eq_refl eq_refl eq_refl)
    as (img1 & alpha & data & Hr & Ha & Hm & _ & Hs & _).
  exists img1, alpha, data. repeat split; try assumption.
  injection Hr as <-. injection Ha as <-. injection Hs as <-. reflexivity.
Defined.

(** ** The interactive front end *)

Section Script.

Context `{P : Platform}.

(** C9: if the file picker returns no selection, or the quality dialog
    returns no value, the main block prints two lines and stops: the
    files are untouched, nothing is opened or saved, and this is so for
    any function put in the place of the compression function, which
    is therefore not called. *)
Theorem cancelled_prompt_writes_nothing
    (selection : string) (answer : option Z) (w : world) :
  selection = EmptyString \/ answer = None ->
  exists line,
    forall compressor : string -> Z -> M unit,
      script_main_with compressor selection answer w
      = (inr tt,
         {| files := files w;
            log := (log w ++ [EvPrint "Select an image file to compress";
                              EvPrint line])%list |}).
Proof.
  intros Hc. unfold script_main_with, bind, print, emit. cbn [files log].
  destruct (String.eqb_spec selection EmptyString) as [->|Hsel].
  - exists "No file selected.". intros f. cbn. now rewrite <- app_assoc.
  - destruct Hc as [Hc | ->]; [contradiction | ].
    exists "Compression cancelled by user.". intros f. cbn.
    now rewrite <- app_assoc.
Qed.

End Script.

Lemma cancelled_prompt_writes_nothing_witness :
  exists line,
    forall compressor : string -> Z -> M unit,
      script_main_with compressor "shots/test.png" None Raster.start
      = (inr tt,
         {| files := files Raster.start;
            log := (log Raster.start
                    ++ [EvPrint "Select an image file to compress";
                        EvPrint line])%list |}).
Proof.
  apply (cancelled_prompt_writes_nothing "shots/test.png" None Raster.start).
  right. reflexivity.
Defined.

(** ** Binary64 arithmetic *)

Section Binary64.

Local Open Scope Z_scope.

Lemma digits2_size p : digits2_pos p = Pos.size p.
Proof. induction p; simpl; congruence. Qed.

Lemma digits2_bounds p :
  2 ^ (Z.pos (digits2_pos p) - 1) <= Z.pos p < 2 ^ Z.pos (digits2_pos p).
Proof.
  rewrite digits2_size. split.
  - pose proof (Pos.size_le p) as H.
    assert (H' : 2 ^ Z.pos (Pos.size p) <= 2 * Z.pos p).
    { change 2 with (Z.pos 2) at 1. rewrite <- Pos2Z.inj_pow. 
      change (2 * Z.pos p) with (Z.pos p~0). now apply Pos2Z.pos_le_pos. }
    replace (Z.pos (Pos.size p)) with (Z.succ (Z.pos (Pos.size p) - 1)) in H' by lia.
    rewrite Z.pow_succ_r in H' by lia. lia.
  - pose proof (Pos.size_gt p) as H.
    change 2 with (Z.pos 2). rewrite <- Pos2Z.inj_pow. now apply Pos2Z.pos_lt_pos.
Qed.

Lemma iter_pos_nat {A} (f : A -> A) p x :
  SpecFloat.iter_pos f p x = Nat.iter (Pos.to_nat p) f x.
Proof.
  revert x. induction p as [p IH|p IH|]; intros x; cbn [SpecFloat.iter_pos].
  - rewrite !IH, <- Nat.iter_add, <- Nat.iter_succ_r.
    f_equal. rewrite Pos2Nat.inj_xI. lia.
  - rewrite !IH, <- Nat.iter_add. f_equal. rewrite Pos2Nat.inj_xO. lia.
  - reflexivity.
Qed.

Lemma loc_of_record_of m l : loc_of_shr_record (shr_record_of_loc m l) = l.
Proof. destruct l as [|[]]; reflexivity. Qed.

Lemma shr_m_record_of m l : shr_m (shr_record_of_loc m l) = m.
Proof. destruct l as [|[]]; reflexivity. Qed.

Lemma shr_1_located num den mrs :
  0 <= shr_m mrs -> 0 < den ->
  located num den (shr_m mrs) (loc_of_shr_record mrs) ->
  shr_m (shr_1 mrs) = shr_m mrs / 2
  /\ located num (2 * den) (shr_m (shr_1 mrs)) (loc_of_shr_record (shr_1 mrs)).
Proof.
  destruct mrs as [m r s]. cbn [shr_m]. intros Hm Hden Hloc.
  destruct m as [|[p|p|]|p]; try lia; cbn [shr_1 shr_m].
  - (* 0 *)
    split; [reflexivity | ].
    destruct r, s; cbn [located loc_of_shr_record orb] in *; lia.
  - (* 2p+1 *)
    split; [rewrite Pos2Z.inj_xI; apply Z.div_unique with 1; lia | ].
    rewrite Pos2Z.inj_xI in Hloc.
    destruct r, s; cbn [located loc_of_shr_record orb] in *; lia.
  - split; [rewrite Pos2Z.inj_xO; apply Z.div_unique with 0; lia | ].
    rewrite Pos2Z.inj_xO in Hloc.
    destruct r, s; cbn [located loc_of_shr_record orb] in *; lia.
  - split; [reflexivity | ].
    destruct r, s; cbn [located loc_of_shr_record orb] in *; lia.
Qed.

Lemma shr_iter_located num den mrs (n : nat) :
  0 <= shr_m mrs -> 0 < den ->
  located num den (shr_m mrs) (loc_of_shr_record mrs) ->
  let r := Nat.iter n shr_1 mrs in
  shr_m r = shr_m mrs / 2 ^ Z.of_nat n
  /\ located num (2 ^ Z.of_nat n * den) (shr_m r) (loc_of_shr_record r).
Proof.
  intros Hm Hden Hloc. cbv zeta. induction n as [|n [IHm IHl]].
  - change (Nat.iter 0 shr_1 mrs) with mrs. change (2 ^ Z.of_nat 0) with 1.
    rewrite Z.div_1_r, Z.mul_1_l. split; [reflexivity | exact Hloc].
  - rewrite Nat.iter_succ.
    assert (H0 : 0 <= shr_m (Nat.iter n shr_1 mrs)).
    { rewrite IHm. apply Z.div_pos; [exact Hm | apply Z.pow_pos_nonneg; lia]. }
    assert (HD : 0 < 2 ^ Z.of_nat n * den).
    { apply Z.mul_pos_pos; [apply Z.pow_pos_nonneg; lia | exact Hden]. }
    destruct (shr_1_located num _ _ H0 HD IHl) as [Hm' Hl'].
    rewrite Nat2Z.inj_succ, Z.pow_succ_r by lia. split.
    + rewrite Hm', IHm, Z.div_div by (try apply Z.pow_pos_nonneg; lia).
      f_equal. lia.
    + rewrite <- Z.mul_assoc. exact Hl'.
Qed.

(** Shifting right by [n] binary places. *)
Lemma shr_located num den m l e n :
  0 <= m -> 0 < den -> 0 <= n -> located num den m l ->
  exists r,
    shr (shr_record_of_loc m l) e n = (r, e + n)
    /\ shr_m r = m / 2 ^ n
    /\ located num (2 ^ n * den) (shr_m r) (loc_of_shr_record r).
Proof.
  intros Hm Hden Hn Hloc. destruct n as [|p|p]; [ | | lia].
  - exists (shr_record_of_loc m l). cbn [shr].
    rewrite Z.add_0_r, shr_m_record_of, loc_of_record_of.
    change (2 ^ 0) with 1. rewrite Z.div_1_r, Z.mul_1_l. auto.
  - exists (SpecFloat.iter_pos shr_1 p (shr_record_of_loc m l)). cbn [shr].
    split; [reflexivity | ]. rewrite iter_pos_nat.
    pose proof (shr_iter_located num den (shr_record_of_loc m l) (Pos.to_nat p)) as H.
    rewrite shr_m_record_of, loc_of_record_of, positive_nat_Z in H.
    apply H; assumption.
Qed.

Lemma round_nearest_even_located num den m l :
  0 < den -> located num den m l ->
  let m' := round_nearest_even m l in
  m <= m' <= m + 1 /\ 2 * Z.abs (m' * den - num) <= den.
Proof.
  intros Hden Hloc. destruct l as [|[]]; cbn [located round_nearest_even] in *.
  - split; [lia | ]. subst num. rewrite Z.sub_diag. cbn. lia.
  - destruct (Z.even m); split; lia.
  - split; lia.
  - split; lia.
Qed.

Lemma located_lower num den m l : 0 < den -> located num den m l -> m * den <= num.
Proof. intros Hden H. destruct l as [|[]]; cbn [located] in H; lia. Qed.

Lemma Zdigits2_unique m k : 0 < k -> 2 ^ (k - 1) <= m < 2 ^ k -> Zdigits2 m = k.
Proof.
  intros Hk [Hlo Hhi].
  assert (0 < m) by (pose proof (Z.pow_pos_nonneg 2 (k - 1)); lia).
  destruct m as [|p|p]; try lia. cbn [Zdigits2].
  pose proof (digits2_bounds p) as [Hlo' Hhi'].
  set (d := Z.pos (digits2_pos p)) in *.
  destruct (Z.lt_trichotomy d k) as [Hlt | [Heq | Hgt]]; [ | exact Heq | ].
  - assert (2 ^ d <= 2 ^ (k - 1)) by (apply Z.pow_le_mono_r; lia). lia.
  - assert (2 ^ k <= 2 ^ (d - 1)) by (apply Z.pow_le_mono_r; lia). lia.
Qed.

Lemma fexp_eq e : fexp 53 1024 e = Z.max (e - 53) (-1074).
Proof. reflexivity. Qed.

Lemma pow2_pos k : 0 <= k -> 0 < 2 ^ k.
Proof. intros. apply Z.pow_pos_nonneg; lia. Qed.

(** Rounding to binary64 in the normal range: the result is within half
    a unit in the last place of the number located. *)
Lemma round_aux_normal sx mx ex lx num den :
  0 < den -> 0 < mx -> located num den mx lx ->
  let n := Zdigits2 mx - 53 in
  0 <= n -> -1074 <= ex + n -> ex + n + 1 <= 971 ->
  exists m e k,
    binary_round_aux 53 1024 sx mx ex lx = S754_finite sx m e
    /\ e = ex + k /\ n <= k <= n + 1
    /\ 2 ^ 52 <= Z.pos m < 2 ^ 53
    /\ 2 * Z.abs (Z.pos m * 2 ^ k * den - num) <= 2 ^ n * den
    /\ 2 ^ 52 * (2 ^ n * den) <= num.
Proof.
  intros Hden Hmx Hloc n Hn Hlo Hhi.
  assert (Hd : 2 ^ (n + 52) <= mx < 2 ^ (n + 53)).
  { destruct mx as [|p|p]; try lia. pose proof (digits2_bounds p) as H.
    unfold n. cbn [Zdigits2].
    replace (Z.pos (digits2_pos p) - 53 + 52) with (Z.pos (digits2_pos p) - 1) by lia.
    replace (Z.pos (digits2_pos p) - 53 + 53) with (Z.pos (digits2_pos p)) by lia.
    exact H. }
  unfold binary_round_aux, shr_fexp.
  rewrite fexp_eq.
  replace (Z.max (Zdigits2 mx + ex - 53) (-1074) - ex) with n by (unfold n; lia).
  destruct (shr_located num den mx lx ex n) as (r1 & -> & Hm1 & Hl1);
    [lia | assumption | assumption | assumption | ].
  set (D := 2 ^ n * den) in *.
  assert (HD : 0 < D) by (apply Z.mul_pos_pos; [now apply pow2_pos | assumption]).
  assert (Hnum : 2 ^ 52 * D <= num).
  { pose proof (located_lower _ _ _ _ Hden Hloc) as Hl.
    apply Z.le_trans with (mx * den); [ | exact Hl].
    unfold D. rewrite Z.mul_assoc, <- Z.pow_add_r by lia.
    apply Z.mul_le_mono_nonneg_r; [lia | ]. rewrite Z.add_comm. apply Hd. }
  assert (Hb1 : 2 ^ 52 <= shr_m r1 < 2 ^ 53).
  { rewrite Hm1. pose proof (pow2_pos n Hn).
    rewrite !Z.pow_add_r in Hd by lia. split.
    - apply Z.div_le_lower_bound; lia.
    - apply Z.div_lt_upper_bound; lia. }
  destruct (round_nearest_even_located num D _ _ HD Hl1) as [Hr Herr].
  set (m2 := round_nearest_even (shr_m r1) (loc_of_shr_record r1)) in *.
  destruct (Z.eq_dec m2 (2 ^ 53)) as [E|NE].
  - (* the mantissa rounds up to the next binade *)
    assert (E' : m2 = 9007199254740992) by (rewrite E; reflexivity).
    rewrite E' in *. change (Zdigits2 9007199254740992) with 54. rewrite fexp_eq.
    replace (Z.max (54 + (ex + n) - 53) (-1074) - (ex + n)) with 1 by lia.
    cbn [shr shr_record_of_loc SpecFloat.iter_pos shr_1 shr_m].
    replace (ex + n + 1 <=? 1024 - 53) with true by (symmetry; apply Z.leb_le; lia).
    exists 4503599627370496%positive, (ex + n + 1), (n + 1).
    split; [reflexivity | ].
    split; [lia | ]. split; [lia | ].
    split; [vm_compute; split; [discriminate | reflexivity] | ].
    split; [ | exact Hnum].
    replace (Z.pos 4503599627370496 * 2 ^ (n + 1) * den) with (9007199254740992 * D).
    + exact Herr.
    + unfold D. rewrite Z.pow_add_r by lia. change (2 ^ 1) with 2. ring.
  - assert (Hb2 : 2 ^ 52 <= m2 < 2 ^ 53) by lia.
    rewrite (Zdigits2_unique m2 53) by (cbn; lia). rewrite fexp_eq.
    replace (Z.max (53 + (ex + n) - 53) (-1074) - (ex + n)) with 0 by lia.
    cbn [shr shr_record_of_loc shr_m].
    destruct m2 as [|p|p] eqn:Em; try (cbn in Hb2; lia).
    replace (ex + n <=? 1024 - 53) with true by (symmetry; apply Z.leb_le; lia).
    eexists _, _, n. split; [reflexivity | ].
    split; [lia | ]. split; [lia | ]. split; [exact Hb2 | ].
    split; [ | exact Hnum].
    replace (Z.pos p * 2 ^ n * den) with (Z.pos p * D) by (unfold D; ring).
    exact Herr.
Qed.

Lemma new_location_located b q r :
  0 < b -> 0 <= r < b ->
  located (b * q + r) b q (new_location b r).
Proof.
  intros Hb Hr. unfold new_location.
  destruct (Z.even b) eqn:Ev.
  - unfold new_location_even.
    destruct (Z.eqb_spec r 0) as [->|Hr0]; [cbn [located]; ring | ].
    destruct (Z.compare_spec (2 * r) b); cbn [located]; lia.
  - unfold new_location_odd.
    destruct (Z.eqb_spec r 0) as [->|Hr0]; [cbn [located]; ring | ].
    assert (Hodd : Z.odd b = true) by (rewrite <- Z.negb_even, Ev; reflexivity).
    apply Z.odd_spec in Hodd as [t Ht].
    destruct (Z.compare_spec (2 * r + 1) b); cbn [located]; lia.
Qed.

(** [a / b] for [0 < a < b]: a normal double within relative distance
    [2 ^ -53] of the quotient. *)
Lemma truediv_spec a b :
  0 < a < b -> b < 2 ^ 1000 ->
  exists m E,
    PyFloat.truediv a b = inr (S754_finite false m (- E))
    /\ 51 <= E <= 1053
    /\ 2 ^ 52 <= Z.pos m < 2 ^ 53
    /\ 2 ^ 53 * Z.abs (Z.pos m * b - a * 2 ^ E) <= a * 2 ^ E.
Proof.
  intros [Ha Hab] Hb. unfold PyFloat.truediv.
  change PyFloat.prec with 53. change PyFloat.emax with 1024.
  destruct (Z.eqb_spec b 0) as [->|_]; [lia | ].
  destruct a as [|pa|pa]; try lia. destruct b as [|pb|pb]; try lia.
  cbn [PyFloat.exact SFdiv xorb]. unfold SFdiv_core_binary. cbn [Zdigits2].
  pose proof (digits2_bounds pa) as [Ha1 Ha2].
  pose proof (digits2_bounds pb) as [Hb1 Hb2].
  set (d1 := Z.pos (digits2_pos pa)) in *. set (d2 := Z.pos (digits2_pos pb)) in *.
  assert (Hd12 : d1 <= d2).
  { destruct (Z.le_gt_cases d1 d2) as [H|H]; [exact H | ].
    assert (2 ^ d2 <= 2 ^ (d1 - 1)) by (apply Z.pow_le_mono_r; lia). lia. }
  assert (Hd2 : d2 <= 1000).
  { assert (d2 - 1 < 1000) by (apply (Z.pow_lt_mono_r_iff 2); lia). lia. }
  assert (Hd1 : 1 <= d1) by (unfold d1; lia).
  rewrite fexp_eq.
  replace (Z.min (Z.max (d1 + 0 - (d2 + 0) - 53) (-1074)) (0 - 0))
    with (d1 - d2 - 53) by lia.
  set (s := 53 + d2 - d1).
  replace (0 - 0 - (d1 - d2 - 53)) with s by (unfold s; lia).
  assert (Hs : 53 <= s <= 1052) by (unfold s; lia).
  replace (match s with 0 => Z.pos pa | Z.pos _ => Z.shiftl (Z.pos pa) s | Z.neg _ => 0 end)
    with (Z.pos pa * 2 ^ s)
    by (destruct s; try lia; now rewrite Z.shiftl_mul_pow2).
  pose proof (Z_div_mod (Z.pos pa * 2 ^ s) (Z.pos pb) eq_refl) as Hdm.
  destruct (Z.div_eucl (Z.pos pa * 2 ^ s) (Z.pos pb)) as [q r].
  destruct Hdm as [Hq Hr].
  pose proof (pow2_pos s ltac:(lia)) as Hps.
  assert (Hqlo : 2 ^ 52 <= q).
  { assert (H1 : Z.pos pb * 2 ^ 52 < Z.pos pa * 2 ^ s).
    { apply Z.lt_le_trans with (2 ^ d2 * 2 ^ 52); [apply Z.mul_lt_mono_pos_r; lia | ].
      apply Z.le_trans with (2 ^ (d1 - 1) * 2 ^ s);
        [ | apply Z.mul_le_mono_nonneg_r; lia].
      rewrite <- !Z.pow_add_r by lia. apply Z.pow_le_mono_r; unfold s; lia. }
    assert (H2 : Z.pos pb * 2 ^ 52 < Z.pos pb * (q + 1)) by lia.
    apply Z.mul_lt_mono_pos_l in H2; lia. }
  assert (Hqhi : q < 2 ^ 54).
  { assert (H1 : Z.pos pa * 2 ^ s < Z.pos pb * 2 ^ 54).
    { apply Z.lt_le_trans with (2 ^ d1 * 2 ^ s); [apply Z.mul_lt_mono_pos_r; lia | ].
      apply Z.le_trans with (2 ^ (d2 - 1) * 2 ^ 54);
        [ | apply Z.mul_le_mono_nonneg_r; lia].
      rewrite <- !Z.pow_add_r by lia. apply Z.pow_le_mono_r; unfold s; lia. }
    assert (H2 : Z.pos pb * q < Z.pos pb * 2 ^ 54) by lia.
    apply Z.mul_lt_mono_pos_l in H2; lia. }
  assert (Hn : Zdigits2 q - 53 = 0 \/ Zdigits2 q - 53 = 1).
  { destruct (Z.lt_ge_cases q (2 ^ 53)).
    - left. rewrite (Zdigits2_unique q 53); [reflexivity | lia | ].
      change (53 - 1) with 52. lia.
    - right. rewrite (Zdigits2_unique q 54); [reflexivity | lia | ].
      change (54 - 1) with 53. lia. }
  destruct (round_aux_normal false q (d1 - d2 - 53) (new_location (Z.pos pb) r)
              (Z.pos pa * 2 ^ s) (Z.pos pb))
    as (m & e & k & -> & -> & Hk & Hm & Herr & Hnum); try lia.
  { rewrite Hq. apply new_location_located; lia. }
  assert (Hrel : 2 ^ 53 * Z.abs (Z.pos m * 2 ^ k * Z.pos pb - Z.pos pa * 2 ^ s)
                 <= Z.pos pa * 2 ^ s).
  { change (2 ^ 53) with (2 ^ 52 * 2). change (2 ^ 52) with 4503599627370496 in *.
    lia. }
  exists m, (s - k). split; [f_equal; f_equal; unfold s; lia | ].
  split; [lia | ]. split; [exact Hm | ].
  assert (Hk0 : 0 < 2 ^ k) by (apply pow2_pos; lia).
  assert (Hsplit : 2 ^ s = 2 ^ (s - k) * 2 ^ k).
  { rewrite <- Z.pow_add_r by lia. f_equal. lia. }
  rewrite Hsplit in Hrel.
  replace (Z.pos m * 2 ^ k * Z.pos pb - Z.pos pa * (2 ^ (s - k) * 2 ^ k))
    with ((Z.pos m * Z.pos pb - Z.pos pa * 2 ^ (s - k)) * 2 ^ k) in Hrel by ring.
  rewrite Z.abs_mul, (Z.abs_eq (2 ^ k)), !Z.mul_assoc in Hrel by lia.
  apply Z.mul_le_mono_pos_r in Hrel; assumption.
Qed.

Lemma iter_xO p d : Z.pos (Pos.iter xO p d) = Z.pos p * 2 ^ Z.pos d.
Proof.
  induction d as [|d IH] using Pos.peano_ind.
  - cbn [Pos.iter]. rewrite Pos2Z.inj_xO. change (2 ^ 1) with 2. ring.
  - rewrite Pos.iter_succ, Pos2Z.inj_xO, IH, Pos2Z.inj_succ, Z.pow_succ_r by lia.
    ring.
Qed.

(** [float(n)] for [0 < n < 2 ^ 53] is [n] itself, with 53 digits. *)
Lemma of_int_spec x :
  0 < x < 2 ^ 53 ->
  exists m j,
    PyFloat.of_int x = inr (S754_finite false m (- j))
    /\ 0 <= j <= 52
    /\ Z.pos m = x * 2 ^ j
    /\ 2 ^ 52 <= Z.pos m < 2 ^ 53.
Proof.
  intros [Hx0 Hx]. unfold PyFloat.of_int.
  change PyFloat.prec with 53. change PyFloat.emax with 1024.
  destruct x as [|p|p]; try lia. cbn [binary_normalize]. unfold binary_round.
  pose proof (digits2_bounds p) as [Hp1 Hp2].
  set (d := Z.pos (digits2_pos p)) in *.
  assert (Hd : 1 <= d <= 53).
  { split; [unfold d; lia | ].
    assert (d - 1 < 53) by (apply (Z.pow_lt_mono_r_iff 2); lia). lia. }
  rewrite fexp_eq. replace (Z.max (d + 0 - 53) (-1074)) with (d - 53) by lia.
  assert (Hal : exists mz, shl_align p 0 (d - 53) = (mz, d - 53)
                           /\ Z.pos mz = Z.pos p * 2 ^ (53 - d)).
  { unfold shl_align. destruct (d - 53 - 0) as [|k|k] eqn:Ek; try lia.
    - exists p. replace (d - 53) with 0 by lia. split; [reflexivity | ].
      replace (53 - d) with 0 by lia. change (2 ^ 0) with 1. ring.
    - exists (Pos.iter xO p k). split; [reflexivity | ].
      rewrite iter_xO. f_equal. f_equal. lia. }
  destruct Hal as (mz & -> & Hmz).
  assert (Hbz : 2 ^ 52 <= Z.pos mz < 2 ^ 53).
  { rewrite Hmz. pose proof (pow2_pos (53 - d) ltac:(lia)) as Hpp. split.
    - apply Z.le_trans with (2 ^ (d - 1) * 2 ^ (53 - d)).
      + rewrite <- Z.pow_add_r by lia. apply Z.pow_le_mono_r; lia.
      + apply Z.mul_le_mono_nonneg_r; lia.
    - apply Z.lt_le_trans with (2 ^ d * 2 ^ (53 - d)).
      + apply Z.mul_lt_mono_pos_r; lia.
      + rewrite <- Z.pow_add_r by lia. apply Z.pow_le_mono_r; lia. }
  assert (Hdz : Zdigits2 (Z.pos mz) = 53).
  { apply Zdigits2_unique; [lia | ]. change (53 - 1) with 52. exact Hbz. }
  destruct (round_aux_normal false (Z.pos mz) (d - 53) loc_Exact (Z.pos mz) 1)
    as (m & e & k & -> & -> & Hk & Hm & Herr & _); try (rewrite ?Hdz; lia).
  { cbn [located]. ring. }
  rewrite Hdz in Hk, Herr. change (53 - 53) with 0 in Hk, Herr.
  change (2 ^ 0) with 1 in Herr.
  assert (Hk0 : k = 0).
  { destruct (Z.eq_dec k 0) as [E|NE]; [exact E | ].
    assert (k = 1) by lia. subst k. change (2 ^ 1) with 2 in Herr. lia. }
  subst k. change (2 ^ 0) with 1 in Herr.
  assert (Z.pos m = Z.pos mz) by lia.
  exists m, (53 - d). split; [do 2 f_equal; lia | ].
  split; [lia | ]. split; [lia | exact Hm].
Qed.

(** The product of two normal doubles, within relative distance
    [2 ^ -53] of the exact product. *)
Lemma mul_spec m1 e1 m2 e2 :
  2 ^ 52 <= Z.pos m1 < 2 ^ 53 -> 2 ^ 52 <= Z.pos m2 < 2 ^ 53 ->
  -1126 <= e1 + e2 <= 800 ->
  exists m e k,
    SFmul 53 1024 (S754_finite false m1 e1) (S754_finite false m2 e2)
    = S754_finite false m e
    /\ e = e1 + e2 + k /\ 52 <= k <= 54
    /\ 2 ^ 53 * Z.abs (Z.pos m * 2 ^ k - Z.pos m1 * Z.pos m2)
       <= Z.pos m1 * Z.pos m2.
Proof.
  intros H1 H2 He. cbn [SFmul xorb]. rewrite Pos2Z.inj_mul.
  set (P := Z.pos m1 * Z.pos m2).
  assert (HP : 2 ^ 104 <= P < 2 ^ 106).
  { unfold P. change (2 ^ 104) with (2 ^ 52 * 2 ^ 52).
    change (2 ^ 106) with (2 ^ 53 * 2 ^ 53). split.
    - apply Z.mul_le_mono_nonneg; lia.
    - apply Z.mul_lt_mono_nonneg; lia. }
  assert (Hn : Zdigits2 P - 53 = 52 \/ Zdigits2 P - 53 = 53).
  { destruct (Z.lt_ge_cases P (2 ^ 105)).
    - left. rewrite (Zdigits2_unique P 105); [reflexivity | lia | ].
      change (105 - 1) with 104. lia.
    - right. rewrite (Zdigits2_unique P 106); [reflexivity | lia | ].
      change (106 - 1) with 105. lia. }
  destruct (round_aux_normal false P (e1 + e2) loc_Exact P 1)
    as (m & e & k & -> & -> & Hk & Hm & Herr & Hnum); try lia.
  { cbn [located]. ring. }
  exists m, (e1 + e2 + k), k. split; [reflexivity | ].
  split; [reflexivity | ]. split; [lia | ].
  rewrite !Z.mul_1_r in *.
  change (2 ^ 53) with (2 ^ 52 * 2). change (2 ^ 52) with 4503599627370496 in *.
  lia.
Qed.

(** [int(x)] for a positive double [m * 2 ^ (a - b)]. *)
Lemma to_int_spec m e a b :
  0 <= a -> 0 <= b -> e = a - b ->
  PyFloat.to_int (S754_finite false m e) = inr (Z.pos m * 2 ^ a / 2 ^ b).
Proof.
  intros Ha Hb ->. cbn [PyFloat.to_int].
  pose proof (pow2_pos a Ha) as Hpa. pose proof (pow2_pos b Hb) as Hpb.
  f_equal. destruct (a - b) as [|k|k] eqn:E.
  - replace a with b by lia. change (2 ^ 0) with 1.
    rewrite Z.div_mul by lia. ring.
  - replace a with (Z.pos k + b) by lia. rewrite Z.pow_add_r by lia.
    rewrite Z.mul_assoc, Z.div_mul by lia. reflexivity.
  - replace b with (Z.pos k + a) by lia. rewrite Z.pow_add_r by lia.
    rewrite Z.div_mul_cancel_r by lia. reflexivity.
Qed.

(** Two roundings of relative error [1 / A] each, one on the ratio and
    one on the product, put together. *)
Lemma two_roundings A V P T x J mr den num F K :
  0 < A -> 0 < x -> 0 < J -> 0 < F -> 0 < den -> 0 < num ->
  A * Z.abs (V - P) <= P ->
  A * Z.abs (mr * den - num * F) <= num * F ->
  P = x * J * mr -> T = J * F -> K = x * num ->
  A * A * V * den <= (A + 1) * (A + 1) * K * T
  /\ (A - 1) * (A - 1) * K * T <= A * A * V * den.
Proof.
  intros HA Hx HJ HF Hden Hnum H1 H2 HP HT HK.
  assert (HxJ : 0 < x * J) by (apply Z.mul_pos_pos; assumption).
  assert (HnF : 0 < num * F) by (apply Z.mul_pos_pos; assumption).
  assert (S1 : A * V <= (A + 1) * P /\ (A - 1) * P <= A * V).
  { destruct (Z.abs_spec (V - P)) as [[? E]|[? E]]; rewrite E in H1; nia. }
  assert (S2 : A * (mr * den) <= (A + 1) * (num * F)
               /\ (A - 1) * (num * F) <= A * (mr * den)).
  { set (M := mr * den) in *. set (N := num * F) in *.
    destruct (Z.abs_spec (M - N)) as [[? E]|[? E]]; rewrite E in H2; nia. }
  subst P T K.
  destruct S1 as [S1u S1l]. destruct S2 as [S2u S2l].
  split.
  - apply Z.le_trans with ((A + 1) * (x * J * mr) * (A * den)).
    + replace (A * A * V * den) with (A * V * (A * den)) by ring.
      apply Z.mul_le_mono_nonneg_r; [apply Z.mul_nonneg_nonneg; lia | exact S1u].
    + replace ((A + 1) * (x * J * mr) * (A * den))
        with (A * (mr * den) * ((A + 1) * (x * J))) by ring.
      replace ((A + 1) * (A + 1) * (x * num) * (J * F))
        with ((A + 1) * (num * F) * ((A + 1) * (x * J))) by ring.
      apply Z.mul_le_mono_nonneg_r; [apply Z.mul_nonneg_nonneg; lia | exact S2u].
  - apply Z.le_trans with ((A - 1) * (x * J * mr) * (A * den)).
    + replace ((A - 1) * (x * J * mr) * (A * den))
        with (A * (mr * den) * ((A - 1) * (x * J))) by ring.
      replace ((A - 1) * (A - 1) * (x * num) * (J * F))
        with ((A - 1) * (num * F) * ((A - 1) * (x * J))) by ring.
      apply Z.mul_le_mono_nonneg_r; [apply Z.mul_nonneg_nonneg; lia | exact S2l].
    + replace (A * A * V * den) with (A * V * (A * den)) by ring.
      apply Z.mul_le_mono_nonneg_r; [apply Z.mul_nonneg_nonneg; lia | exact S1l].
Qed.

(** What they leave of the integer part. *)
Lemma truncation_bounds A V T K den :
  1 < A -> 0 < T -> 0 < den -> 0 <= K ->
  A * A * V * den <= (A + 1) * (A + 1) * K * T ->
  (A - 1) * (A - 1) * K * T <= A * A * V * den ->
  K * (2 * A + 1) < A * A ->
  K * (2 * A - 1) <= (A - 1) * (A - 1) ->
  K / den - 1 <= V / T <= K / den
  /\ (K mod den <> 0 -> V / T = K / den).
Proof.
  intros HA HT Hden HK HU HL HK1 HK2.
  pose proof (Z.div_mod K den ltac:(lia)) as Hdm.
  pose proof (Z.mod_pos_bound K den Hden) as Hmod.
  set (n := K / den) in *. set (r := K mod den) in *.
  assert (Hn0 : 0 <= n) by (apply Z.div_pos; lia).
  assert (HnK : n <= K) by nia.
  assert (Hup : V / T <= n).
  { apply Z.lt_succ_r. apply Z.div_lt_upper_bound; [exact HT | ].
    destruct (Z.lt_ge_cases V (T * Z.succ n)) as [Hlt|Hge]; [exact Hlt | exfalso].
    assert (C1 : A * A * (T * Z.succ n) * den <= A * A * V * den).
    { apply Z.mul_le_mono_nonneg_r; [lia | ].
      apply Z.mul_le_mono_nonneg_l; [nia | exact Hge]. }
    assert (C2 : T * (A * A * (K + 1)) <= T * ((A + 1) * (A + 1) * K)).
    { apply Z.le_trans with (A * A * (T * Z.succ n) * den).
      - replace (A * A * (T * Z.succ n) * den) with (T * (A * A * (den * (n + 1)))) by ring.
        apply Z.mul_le_mono_nonneg_l; [lia | ].
        apply Z.mul_le_mono_nonneg_l; [nia | lia].
      - replace (T * ((A + 1) * (A + 1) * K)) with ((A + 1) * (A + 1) * K * T) by ring.
        lia. }
    apply Z.mul_le_mono_pos_l in C2; [ | exact HT]. nia. }
  assert (Hlow : forall c, 0 <= c -> den * c <= K ->
                           (K = den * c -> c - 1 <= V / T)
                           /\ (den * c < K -> c <= V / T)).
  { intros c Hc HcK. split.
    - intros HKc. apply Z.div_le_lower_bound; [exact HT | ].
      destruct (Z.le_gt_cases (T * (c - 1)) V) as [Hle|Hgt]; [exact Hle | exfalso].
      assert (C1 : A * A * V * den < A * A * (T * (c - 1)) * den).
      { apply Z.mul_lt_mono_pos_r; [exact Hden | ].
        apply Z.mul_lt_mono_pos_l; [nia | exact Hgt]. }
      assert (C2 : (T * den) * ((A - 1) * (A - 1) * c) < (T * den) * (A * A * (c - 1))).
      { replace ((T * den) * (A * A * (c - 1))) with (A * A * (T * (c - 1)) * den) by ring.
        replace ((T * den) * ((A - 1) * (A - 1) * c))
          with ((A - 1) * (A - 1) * (den * c) * T) by ring.
        rewrite <- HKc. lia. }
      apply Z.mul_lt_mono_pos_l in C2; [ | nia]. nia.
    - intros HKc. apply Z.div_le_lower_bound; [exact HT | ].
      destruct (Z.le_gt_cases (T * c) V) as [Hle|Hgt]; [exact Hle | exfalso].
      assert (C1 : A * A * V * den < A * A * (T * c) * den).
      { apply Z.mul_lt_mono_pos_r; [exact Hden | ].
        apply Z.mul_lt_mono_pos_l; [nia | exact Hgt]. }
      assert (C2 : T * ((A - 1) * (A - 1) * (den * c + 1)) < T * (A * A * (den * c))).
      { replace (T * (A * A * (den * c))) with (A * A * (T * c) * den) by ring.
        apply Z.le_lt_trans with ((A - 1) * (A - 1) * K * T); [ | lia].
        replace ((A - 1) * (A - 1) * K * T) with (T * ((A - 1) * (A - 1) * K)) by ring.
        apply Z.mul_le_mono_nonneg_l; [lia | ].
        apply Z.mul_le_mono_nonneg_l; [nia | lia]. }
      apply Z.mul_lt_mono_pos_l in C2; [ | exact HT]. nia. }
  destruct (Hlow n Hn0 ltac:(lia)) as [Heq Hlt].
  split; [split; [ | exact Hup] | ].
  - destruct (Z.eq_dec r 0) as [E|NE]; [apply Heq; lia | ].
    assert (n <= V / T) by (apply Hlt; lia). lia.
  - intros Hr. assert (n <= V / T) by (apply Hlt; lia). lia.
Qed.

(** [int(x * (num / den))] for a ratio below one and a product below
    [2 ^ 52]: the integer part of the exact quotient unless that
    quotient is an integer, when it may be one less. *)
Lemma scaled_floor x num den :
  0 < x -> 0 < num < den -> den < 2 ^ 1000 -> x * num < 2 ^ 52 ->
  exists h,
    scaled x num den = inr h
    /\ x * num / den - 1 <= h <= x * num / den
    /\ ((x * num) mod den <> 0 -> h = x * num / den).
Proof.
  intros Hx Hnum Hden HK. unfold scaled.
  destruct (truediv_spec num den Hnum Hden) as (mr & E & -> & HE & Hmr & Hrel).
  cbn [res_bind]. unfold PyFloat.mul_int.
  assert (Hx53 : 0 < x < 2 ^ 53).
  { split; [exact Hx | ]. apply Z.le_lt_trans with (x * num); [nia | ].
    apply Z.lt_trans with (2 ^ 52); [exact HK | reflexivity]. }
  destruct (of_int_spec x Hx53) as (mh & j & -> & Hj & Hmh & Hbh).
  cbn [res_bind]. change PyFloat.prec with 53. change PyFloat.emax with 1024.
  destruct (mul_spec mh (- j) mr (- E) Hbh Hmr ltac:(lia))
    as (m & e & k & -> & -> & Hk & Hrel2).
  rewrite (to_int_spec m _ k (j + E)) by lia.
  eexists. split; [reflexivity | ].
  pose proof (pow2_pos j ltac:(lia)) as Hpj.
  pose proof (pow2_pos E ltac:(lia)) as HpE.
  assert (HP : Z.pos mh * Z.pos mr = x * 2 ^ j * Z.pos mr) by (rewrite Hmh; ring).
  assert (HT : 2 ^ (j + E) = 2 ^ j * 2 ^ E) by (apply Z.pow_add_r; lia).
  destruct (two_roundings (2 ^ 53) (Z.pos m * 2 ^ k) (Z.pos mh * Z.pos mr)
              (2 ^ (j + E)) x (2 ^ j) (Z.pos mr) den num (2 ^ E) (x * num)
              ltac:(reflexivity) Hx Hpj HpE ltac:(lia) ltac:(lia) Hrel2 Hrel HP HT eq_refl)
    as [HU HL].
  change (2 ^ 52) with 4503599627370496 in HK.
  apply (truncation_bounds (2 ^ 53)); try assumption; try lia.
Qed.

End Binary64.

(** ** The resize arithmetic *)

Lemma new_dimensions_stages (size : Z * Z) (max_width max_height : option Z) :
  new_dimensions size max_width max_height
  = let* s := bound_width size max_width in bound_height s max_height.
Proof.
  destruct size as [W H]. unfold new_dimensions, bound_width, bound_height, scaled.
  cbn [fst snd].
  destruct max_width as [mw|]; cbn [truthy res_bind].
  - destruct (negb (mw =? 0)%Z && (mw <? W)%Z); cbn [res_bind].
    + destruct (PyFloat.truediv mw W) as [e|ratio]; [reflexivity | ].
      cbn [res_bind].
      destruct (PyFloat.mul_int H ratio) as [e|product]; [reflexivity | ].
      cbn [res_bind].
      destruct (PyFloat.to_int product) as [e|h]; [reflexivity | ].
      cbn [res_bind fst snd].
      destruct max_height as [mh|]; [ | reflexivity]. cbn [truthy].
      destruct (negb (mh =? 0)%Z && (mh <? h)%Z); [ | reflexivity].
      destruct (PyFloat.truediv mh h) as [e|r2]; [reflexivity | ].
      cbn [res_bind].
      destruct (PyFloat.mul_int mw r2) as [e|p2]; [reflexivity | ].
      cbn [res_bind]. destruct (PyFloat.to_int p2); reflexivity.
    + destruct max_height as [mh|]; [ | reflexivity]. cbn [truthy fst snd].
      destruct (negb (mh =? 0)%Z && (mh <? H)%Z); [ | reflexivity].
      destruct (PyFloat.truediv mh H) as [e|r2]; [reflexivity | ].
      cbn [res_bind].
      destruct (PyFloat.mul_int W r2) as [e|p2]; [reflexivity | ].
      cbn [res_bind]. destruct (PyFloat.to_int p2); reflexivity.
  - destruct max_height as [mh|]; [ | reflexivity]. cbn [truthy fst snd].
    destruct (negb (mh =? 0)%Z && (mh <? H)%Z); [ | reflexivity].
    destruct (PyFloat.truediv mh H) as [e|r2]; [reflexivity | ].
    cbn [res_bind].
    destruct (PyFloat.mul_int W r2) as [e|p2]; [reflexivity | ].
    cbn [res_bind]. destruct (PyFloat.to_int p2); reflexivity.
Qed.

Lemma bound_width_floor (W H mw : Z) :
  (0 < H)%Z -> (0 < mw < W)%Z -> (W < 2 ^ 1000)%Z -> (H * mw < 2 ^ 52)%Z ->
  exists h, bound_width (W, H) (Some mw) = inr (mw, h)
            /\ truncated_quotient (H * mw) W h.
Proof.
  intros HH Hmw HW HK. unfold bound_width. cbn [fst snd].
  replace (negb (mw =? 0)%Z && (mw <? W)%Z) with true.
  - destruct (scaled_floor H mw W HH Hmw HW HK) as (h & -> & Hh).
    exists h. split; [reflexivity | exact Hh].
  - symmetry. apply andb_true_iff. split.
    + apply negb_true_iff, Z.eqb_neq. lia.
    + apply Z.ltb_lt. lia.
Qed.

Lemma bound_height_floor (W H mh : Z) :
  (0 < W)%Z -> (0 < mh < H)%Z -> (H < 2 ^ 1000)%Z -> (W * mh < 2 ^ 52)%Z ->
  exists w, bound_height (W, H) (Some mh) = inr (w, mh)
            /\ truncated_quotient (W * mh) H w.
Proof.
  intros HW Hmh HH HK. unfold bound_height. cbn [fst snd].
  replace (negb (mh =? 0)%Z && (mh <? H)%Z) with true.
  - destruct (scaled_floor W mh H HW Hmh HH HK) as (w & -> & Hw).
    exists w. split; [reflexivity | exact Hw].
  - symmetry. apply andb_true_iff. split.
    + apply negb_true_iff, Z.eqb_neq. lia.
    + apply Z.ltb_lt. lia.
Qed.

(** C1, as the spec has it, fails: a 4 by 7 image bounded to width 1 gets
    the height 1, the integer part of 7/4, and not 2, the integer nearest
    to it; a 7 by 4 image bounded to height 1 gets the width 1 likewise.
    No tie is involved. *)
Lemma resize_does_not_round :
  new_dimensions (4, 7)%Z (Some 1%Z) None = inr (1, 1)%Z
  /\ new_dimensions (7, 4)%Z None (Some 1%Z) = inr (1, 1)%Z
  /\ ~ nearest_int (7 * 1) 4 1
  /\ nearest_int (7 * 1) 4 2.
Proof.
  split; [vm_compute; reflexivity | ].
  split; [vm_compute; reflexivity | ].
  unfold nearest_int. split; cbn; lia.
Qed.

(** The truncation is of the double-precision product: when the bound
    divides evenly the result can fall one short. *)
Example resize_49_by_49 :
  new_dimensions (49, 49)%Z (Some 1%Z) None = inr (1, 0)%Z.
Proof. vm_compute. reflexivity. Qed.

Lemma scaled_truncating (x num den h : Z) :
  scaled x num den = inr h -> truncating x num den h.
Proof.
  intros Hs. split; [exact Hs | ].
  intros Hx Hnum Hden HK.
  destruct (scaled_floor x num den Hx Hnum Hden HK) as (h' & Hs' & Hq).
  rewrite Hs in Hs'. injection Hs' as <-. exact Hq.
Qed.

Lemma bound_width_stage (W H : Z) (mw : option Z) (w1 h1 : Z) :
  bound_width (W, H) mw = inr (w1, h1) -> width_stage W H mw w1 h1.
Proof.
  unfold bound_width, width_stage. cbn [fst snd].
  destruct mw as [b|]; [ | intros [= <- <-]; auto].
  destruct (negb (b =? 0)%Z && (b <? W)%Z); [ | intros [= <- <-]; auto].
  destruct (scaled H b W) as [e|h] eqn:Hs; [discriminate | ].
  cbn [res_bind]. intros [= <- <-].
  split; [reflexivity | now apply scaled_truncating].
Qed.

Lemma bound_height_stage (w1 h1 : Z) (mh : option Z) (w2 h2 : Z) :
  bound_height (w1, h1) mh = inr (w2, h2) -> height_stage w1 h1 mh w2 h2.
Proof.
  unfold bound_height, height_stage. cbn [fst snd].
  destruct mh as [b|]; [ | intros [= <- <-]; auto].
  destruct (negb (b =? 0)%Z && (b <? h1)%Z); [ | intros [= <- <-]; auto].
  destruct (scaled w1 b h1) as [e|w] eqn:Hs; [discriminate | ].
  cbn [res_bind]. intros [= <- <-].
  split; [reflexivity | now apply scaled_truncating].
Qed.

Lemma bound_not_truthy (size : Z * Z) (bound : option Z) :
  truthy bound = false ->
  bound_width size bound = inr size /\ bound_height size bound = inr size.
Proof.
  unfold truthy, bound_width, bound_height.
  destruct bound as [b|]; [ | auto]. intros ->. auto.
Qed.

Section ResizeInPipeline.

Context `{P : Platform}.

Implicit Types (w : world) (img : Image) (q : Z).

(** The image the resize step hands on: the one it was given when the
    two stages leave the size alone, and otherwise what the resampling
    to the new size returns. *)
Lemma resized_stages img0 (W H : Z) (mw mh : option Z) img1 :
  im_size img0 = (W, H) ->
  resized img0 mw mh = inr img1 ->
  exists s1 s2,
    bound_width (W, H) mw = inr s1
    /\ bound_height s1 mh = inr s2
    /\ (if size_eqb s2 (W, H) then img1 = img0
        else resize_lanczos img0 s2 = inr img1).
Proof.
  intros Hsize. unfold resized. rewrite Hsize.
  destruct (truthy mw || truthy mh) eqn:Ht.
  - rewrite new_dimensions_stages.
    destruct (bound_width (W, H) mw) as [e|s1] eqn:Hb1; [discriminate | ].
    cbn [res_bind].
    destruct (bound_height s1 mh) as [e|s2] eqn:Hb2; [discriminate | ].
    cbn [res_bind]. intros Hr. exists s1, s2.
    split; [reflexivity | ]. split; [exact Hb2 | ].
    destruct (size_eqb s2 (W, H)); cbn [negb] in Hr; [congruence | exact Hr].
  - apply orb_false_iff in Ht as [Hw Hh]. intros [= <-].
    exists (W, H), (W, H).
    split; [apply (bound_not_truthy _ _ Hw) | ].
    split; [apply (bound_not_truthy _ _ Hh) | ].
    unfold size_eqb. cbn [fst snd]. now rewrite !Z.eqb_refl.
Qed.

(** What a returning call has done with the decoded image. *)
Lemma compress_image_resized
    w (input_path : string) (output_path : option string) q
    (mw mh : option Z) (n : node) img0 (W H : Z) (p : string) w' :
  files w !! locate input_path = Some n ->
  decode n = inr img0 ->
  im_size img0 = (W, H) ->
  compress_image input_path output_path q mw mh w = (inr p, w') ->
  exists s1 s2 img1 img2 fmt params,
    bound_width (W, H) mw = inr s1
    /\ bound_height s1 mh = inr s2
    /\ (if size_eqb s2 (W, H) then img1 = img0
        else resize_lanczos img0 s2 = inr img1)
    /\ flatten_step img1 (output_ext input_path output_path) w = (inr img2, w)
    /\ log w' = (log w ++ [EvOpen input_path; EvSave img2 p fmt params])%list.
Proof.
  intros Hn Hd Hsize Hc.
  apply compress_image_ok in Hc
    as (n' & i0 & img1 & img2 & data & Hn' & Hd' & Hr & Hf & -> & _ & ->).
  rewrite Hn in Hn'. injection Hn' as <-. rewrite Hd in Hd'. injection Hd' as <-.
  destruct (resized_stages _ _ _ _ _ _ Hsize Hr) as (s1 & s2 & Hb1 & Hb2 & Hi).
  exists s1, s2, img1, img2. eexists _, _.
  split; [exact Hb1 | ]. split; [exact Hb2 | ]. split; [exact Hi | ].
  split; [rewrite flatten_step_pure, Hf; reflexivity | reflexivity].
Qed.

(** C1, as the code has it: in a call of [compress_image] that returns,
    on an input that decodes to a [W] by [H] image, the image flattened
    and saved is the decoded one resampled to the size [(w2, h2)] the two
    stages give (or the decoded one itself when that size is [(W, H)]).
    A bound that is absent, 0, or not exceeded leaves the size alone;
    any other width bound [b] (a negative one too) gives the width [b]
    and the height [int(H * (b / W))]; any other height bound [b] gives
    the height [b] and, from the size [(w1, h1)] the width stage left,
    the width [int(w1 * (b / h1))].  [int] truncates: for positive
    operands with the product below [2 ^ 52] the result is the integer
    part of the exact quotient, or one less when the quotient is an
    integer; it is not the nearest integer. *)
Theorem resize_truncates
    w (input_path : string) (output_path : option string) q
    (max_width max_height : option Z) (n : node) img0 (W H : Z)
    (p : string) w' :
  files w !! locate input_path = Some n ->
  decode n = inr img0 ->
  im_size img0 = (W, H) ->
  compress_image input_path output_path q max_width max_height w = (inr p, w') ->
  exists (w1 h1 w2 h2 : Z) img1 img2 fmt params,
    width_stage W H max_width w1 h1
    /\ height_stage w1 h1 max_height w2 h2
    /\ (if size_eqb (w2, h2) (W, H) then img1 = img0
        else resize_lanczos img0 (w2, h2) = inr img1)
    /\ flatten_step img1 (output_ext input_path output_path) w = (inr img2, w)
    /\ log w' = (log w ++ [EvOpen input_path; EvSave img2 p fmt params])%list.
Proof.
  intros Hn Hd Hsize Hc.
  destruct (compress_image_resized _ _ _ _ _ _ _ _ _ _ _ _ Hn Hd Hsize Hc)
    as ([w1 h1] & [w2 h2] & img1 & img2 & fmt & params & Hb1 & Hb2 & Hi & Hf & Hl).
  exists w1, h1, w2, h2, img1, img2, fmt, params.
  split; [now apply bound_width_stage | ].
  split; [now apply bound_height_stage | ].
  auto.
Qed.

(** C2: in a call of [compress_image] that returns, the size asked of
    the resampling is what the width bound, applied first, and the
    height bound, applied second to the size the width bound left, give;
    nothing is applied after that.  So the height bound is tested
    against the width-adjusted height: when the width bound applies and
    leaves a height within the height bound, the size is the one the
    width bound left, whatever the original height was.  An input that
    decodes to a 200 by 200 image, with [max_width = 100] and no height
    bound, is resampled to 100 by 100, and with a library that keeps its
    word on sizes the image saved is 100 by 100. *)
Theorem width_bound_then_height_bound
    w (input_path : string) (output_path : option string) q
    (max_width max_height : option Z) (n : node) img0 (W H : Z)
    (p : string) w' :
  files w !! locate input_path = Some n ->
  decode n = inr img0 ->
  im_size img0 = (W, H) ->
  compress_image input_path output_path q max_width max_height w = (inr p, w') ->
  exists s1 s2 img1 img2 fmt params,
    bound_width (W, H) max_width = inr s1
    /\ bound_height s1 max_height = inr s2
    /\ (if size_eqb s2 (W, H) then img1 = img0
        else resize_lanczos img0 s2 = inr img1)
    /\ flatten_step img1 (output_ext input_path output_path) w = (inr img2, w)
    /\ log w' = (log w ++ [EvOpen input_path; EvSave img2 p fmt params])%list
    /\ (forall bw bh,
          max_width = Some bw -> max_height = Some bh ->
          bw <> 0%Z -> (bw < W)%Z -> (snd s1 <= bh)%Z ->
          fst s1 = bw /\ s2 = s1)
    /\ ((W, H) = (200, 200)%Z -> max_width = Some 100%Z -> max_height = None ->
        s2 = (100, 100)%Z
        /\ resize_lanczos img0 (100, 100)%Z = inr img1
        /\ (SizeLawful P -> im_size img2 = (100, 100)%Z)).
Proof.
  intros Hn Hd Hsize Hc.
  destruct (compress_image_resized _ _ _ _ _ _ _ _ _ _ _ _ Hn Hd Hsize Hc)
    as (s1 & s2 & img1 & img2 & fmt & params & Hb1 & Hb2 & Hi & Hf & Hl).
  exists s1, s2, img1, img2, fmt, params.
  split; [exact Hb1 | ]. split; [exact Hb2 | ]. split; [exact Hi | ].
  split; [exact Hf | ]. split; [exact Hl | ]. split.
  - intros bw bh -> -> Hbw0 HbwW Hle.
    unfold bound_width in Hb1. cbn [fst snd] in Hb1.
    replace (negb (bw =? 0)%Z && (bw <? W)%Z) with true in Hb1.
    2:{ symmetry. apply andb_true_iff. split.
        - now apply negb_true_iff, Z.eqb_neq.
        - now apply Z.ltb_lt. }
    destruct (scaled H bw W) as [e|h1]; [discriminate | ].
    cbn [res_bind] in Hb1. injection Hb1 as <-. cbn [fst snd] in *.
    split; [reflexivity | ].
    unfold bound_height in Hb2. cbn [fst snd] in Hb2.
    replace (bh <? h1)%Z with false in Hb2 by (symmetry; now apply Z.ltb_ge).
    rewrite andb_false_r in Hb2. now injection Hb2 as <-.
  - intros [= -> ->] -> ->.
    assert (Hs1 : s1 = (100, 100)%Z).
    { assert (E : bound_width (200, 200)%Z (Some 100%Z) = inr (100, 100)%Z)
        by (vm_compute; reflexivity).
      rewrite E in Hb1. now injection Hb1 as <-. }
    subst s1. cbn [bound_height] in Hb2. injection Hb2 as <-.
    change (size_eqb (100, 100)%Z (200, 200)%Z) with false in Hi.
    split; [reflexivity | ]. split; [exact Hi | ].
    intros SL. pose proof (size_resize _ _ _ Hi) as Hs.
    rewrite flatten_step_pure in Hf. injection Hf as Hf.
    unfold flattened in Hf. destruct (_ && _).
    + destruct (split img1 !! 3%nat); [ | discriminate].
      injection Hf as <-. now rewrite size_paste, size_new.
    + now injection Hf as <-.
Qed.

End ResizeInPipeline.

Lemma Raster_size_lawful : SizeLawful Raster.platform.
Proof.
  split.
  - intros img s img'. cbn. unfold Raster.resize.
    destruct (_ && _); [ | discriminate]. intros [= <-]. reflexivity.
  - reflexivity.
  - reflexivity.
Qed.

(** The order shows on small images: a 2 by 4 image with the bounds 1
    and 3 becomes 1 by 2; the height bound is not applied, although the
    original height exceeds it. *)
Example width_first_example :
  new_dimensions (2, 4)%Z (Some 1%Z) (Some 3%Z) = inr (1, 2)%Z.
Proof. vm_compute. reflexivity. Qed.

Lemma resize_truncates_witness :
  exists img1 img2 fmt params,
    width_stage 200 200 (Some 120%Z) 120 120
    /\ height_stage 120 120 (Some 90%Z) 90 90
    /\ resize_lanczos (Raster.picture (200, 200)%Z "RGB") (90, 90)%Z = inr img1
    /\ flatten_step img1 ".png" Raster.start = (inr img2, Raster.start)
    /\ log (snd (compress_image "shots/test.png" None 85 (Some 120%Z) (Some 90%Z)
                   Raster.start))
       = [EvOpen "shots/test.png";
          EvSave img2 "shots/test_compressed.png" fmt params].
Proof.
  destruct (resize_truncates Raster.start "shots/test.png" None 85
              (Some 120%Z) (Some 90%Z) Raster.red_png
              (Raster.picture (200, 200)%Z "RGB") 200 200
              "shots/test_compressed.png"
              (snd (compress_image "shots/test.png" None 85 (Some 120%Z) (Some 90%Z)
                      Raster.start))
              eq_refl eq_refl eq_refl)
    as (w1 & h1 & w2 & h2 & img1 & img2 & fmt & params & Hw & Hh & Hi & Hf & Hl).
  { vm_compute. reflexivity. }
  cbn [width_stage negb Z.eqb Z.ltb Z.compare Pos.compare Pos.compare_cont andb] in Hw.
  destruct Hw as [-> [Hs1 _]].
  assert (E1 : h1 = 120%Z).
  { assert (E : scaled 200 120 200 = inr 120%Z) by (vm_compute; reflexivity).
    rewrite E in Hs1. now injection Hs1 as <-. }
  subst h1.
  cbn [height_stage negb Z.eqb Z.ltb Z.compare Pos.compare Pos.compare_cont andb] in Hh.
  destruct Hh as [-> [Hs2 _]].
  assert (E2 : w2 = 90%Z).
  { assert (E : scaled 120 90 120 = inr 90%Z) by (vm_compute; reflexivity).
    rewrite E in Hs2. now injection Hs2 as <-. }
  subst w2.
  change (size_eqb (90, 90)%Z (200, 200)%Z) with false in Hi.
  exists img1, img2, fmt, params.
  split; [split; [reflexivity | apply scaled_truncating; vm_compute; reflexivity] | ].
  split; [split; [reflexivity | apply scaled_truncating; vm_compute; reflexivity] | ].
  split; [exact Hi | ]. split; [exact Hf | exact Hl].
Defined.

Lemma width_bound_then_height_bound_witness :
  exists img1 img2,
    resize_lanczos (Raster.picture (200, 200)%Z "RGB") (100, 100)%Z = inr img1
    /\ im_size img2 = (100, 100)%Z
    /\ exists fmt params,
         log (snd (compress_image "shots/test.png" None 85 (Some 100%Z) None
                     Raster.start))
         = [EvOpen "shots/test.png";
            EvSave img2 "shots/test_compressed.png" fmt params].
Proof.
  destruct (width_bound_then_height_bound Raster.start "shots/test.png" None 85
              (Some 100%Z) None Raster.red_png
              (Raster.picture (200, 200)%Z "RGB") 200 200
              "shots/test_compressed.png"
              (snd (compress_image "shots/test.png" None 85 (Some 100%Z) None
                      Raster.start))
              eq_refl eq_refl eq_refl)
    as (s1 & s2 & img1 & img2 & fmt & params & _ & _ & _ & _ & Hl & _ & H200).
  { vm_compute. reflexivity. }
  destruct (H200 eq_refl eq_refl eq_refl) as (_ & Hr & Hsz).
  exists img1, img2. split; [exact Hr | ].
  split; [exact (Hsz Raster_size_lawful) | ].
  exists fmt, params. exact Hl.
Defined.

(** * Further properties *)

(** ** Paths *)

Lemma take_drop i s : PyStr.take i s +:+ PyStr.drop i s = s.
Proof.
  revert s. induction i as [|i IH]; intros [|a s]; try reflexivity.
  change (String a (PyStr.take i s +:+ PyStr.drop i s) = String a s).
  f_equal. apply IH.
Qed.

Lemma append_nil s : s +:+ EmptyString = s.
Proof.
  induction s as [|a s IH]; [reflexivity | ].
  change (String a (s +:+ EmptyString) = String a s). f_equal. exact IH.
Qed.

(** X1: a file name is its stem followed by its suffix. *)
Theorem stem_suffix_name (p : PurePath.t) :
  PurePath.stem p +:+ PurePath.suffix p = PurePath.name p.
Proof.
  unfold PurePath.stem, PurePath.suffix.
  destruct (PyStr.rfind "." (PurePath.name p)) as [i|].
  - destruct (_ && _); [apply take_drop | apply append_nil].
  - apply append_nil.
Qed.

Lemma rfind_drop c s i :
  PyStr.rfind c s = Some i -> exists rest, PyStr.drop i s = String c rest.
Proof.
  revert i. induction s as [|a s IH]; intros i; simpl; [discriminate | ].
  destruct (PyStr.rfind c s) as [j|].
  - intros [= <-]. simpl. apply IH. reflexivity.
  - destruct (Ascii.eqb_spec a c) as [->|]; [ | discriminate].
    intros [= <-]. simpl. eauto.
Qed.

(** X2: [os.path.splitext] loses nothing: the two parts put together
    are the path; and the extension is empty or begins with a dot. *)
Theorem splitext_round_trip (p : string) :
  fst (PosixPath.splitext p) +:+ snd (PosixPath.splitext p) = p
  /\ (snd (PosixPath.splitext p) = EmptyString
      \/ exists rest, snd (PosixPath.splitext p) = String "." rest).
Proof.
  pose proof append_nil as Hnil.
  unfold PosixPath.splitext.
  destruct (PyStr.rfind "." p) as [dot|] eqn:Hdot; cbn [fst snd].
  - destruct (_ && _); cbn [fst snd].
    + split; [apply take_drop | right]. now apply rfind_drop.
    + split; [apply Hnil | now left].
  - split; [apply Hnil | now left].
Qed.

Lemma split_nonempty c s : PyStr.split c s <> [].
Proof.
  destruct s as [|a s]; simpl; [discriminate | ].
  destruct (Ascii.eqb a c); [discriminate | ].
  destruct (PyStr.split c s); discriminate.
Qed.

Lemma split_app c a b :
  PyStr.split c (a +:+ String c b)
  = (PyStr.split c a ++ PyStr.split c b)%list.
Proof.
  induction a as [|x a IH]; simpl.
  - rewrite Ascii.eqb_refl. reflexivity.
  - rewrite IH. destruct (Ascii.eqb x c); [reflexivity | ].
    pose proof (split_nonempty c a) as Hne.
    destruct (PyStr.split c a); [contradiction | reflexivity].
Qed.

Lemma last_filter_snoc {A} (f : A -> bool) l x d :
  f x = true -> List.last (List.filter f (l ++ [x])) d = x.
Proof.
  intros Hx. rewrite List.filter_app. cbn [List.filter]. rewrite Hx.
  apply List.last_last.
Qed.

Lemma append_assoc a b c : (a +:+ b) +:+ c = a +:+ (b +:+ c).
Proof.
  induction a as [|x a IH]; [reflexivity | ].
  change (String x ((a +:+ b) +:+ c) = String x (a +:+ (b +:+ c))).
  f_equal. exact IH.
Qed.

(** The name of the path a string denotes, when the string ends with a
    component without slash that is neither empty nor a dot. *)
Lemma name_of_last_component pre x :
  PyStr.has_char "/" x = false -> PurePath.keep_part x = true ->
  (pre = EmptyString \/ exists pre', pre = pre' +:+ "/") ->
  PurePath.name (PurePath.parse (pre +:+ x)) = x.
Proof.
  intros Hfree Hkeep Hpre. unfold PurePath.name, PurePath.parse.
  cbn [PurePath.parts].
  destruct Hpre as [->|[pre' ->]].
  - change (EmptyString +:+ x) with x. rewrite (split_free _ _ Hfree).
    cbn [List.filter]. rewrite Hkeep. reflexivity.
  - rewrite append_assoc. change ("/" +:+ x) with (String "/" x).
    rewrite split_app, (split_free _ _ Hfree).
    now apply last_filter_snoc.
Qed.

Lemma join_cons sep y l :
  l <> [] -> PyStr.join sep (y :: l) = y +:+ sep +:+ PyStr.join sep l.
Proof. destruct l; [contradiction | reflexivity]. Qed.

Lemma join_snoc l x :
  exists pre,
    PyStr.join "/" (l ++ [x]) = pre +:+ x
    /\ (pre = EmptyString \/ exists pre', pre = pre' +:+ "/").
Proof.
  induction l as [|y l (pre & IH & Hpre)].
  - exists EmptyString. split; [reflexivity | now left].
  - exists (y +:+ "/" +:+ pre). split.
    + cbn [app]. rewrite join_cons by (destruct l; discriminate).
      rewrite IH, !append_assoc. reflexivity.
    + right. destruct Hpre as [->|[pre' ->]].
      * exists y. now rewrite append_nil.
      * exists (y +:+ "/" +:+ pre'). now rewrite !append_assoc.
Qed.

Lemma parse_root_cases s :
  PurePath.parse_root s = EmptyString
  \/ PurePath.parse_root s = "/" \/ PurePath.parse_root s = "//".
Proof.
  unfold PurePath.parse_root.
  destruct (PyStr.startswith "/" s); [ | now left].
  destruct (_ && _); auto.
Qed.

Lemma stem_suffix_length p :
  (String.length (PurePath.stem p) + String.length (PurePath.suffix p)
   = String.length (PurePath.name p))%nat.
Proof.
  rewrite <- append_length. f_equal.
  unfold PurePath.stem, PurePath.suffix.
  destruct (PyStr.rfind "." (PurePath.name p)) as [i|].
  - destruct (_ && _); [apply take_drop | apply append_nil].
  - apply append_nil.
Qed.

(** X3: with no explicit output path, the path [compress_image] writes
    to and returns is never the input path as it was given. *)
Theorem derived_output_differs_from_input (input_path : string) :
  resolved_str input_path None <> input_path.
Proof.
  cbn [resolved_str]. rewrite derived_path_parts. cbv zeta.
  set (input_file := PurePath.parse input_path).
  set (x := PurePath.stem input_file +:+ "_compressed" +:+ PurePath.suffix input_file).
  assert (Hlen : (String.length x = String.length (PurePath.name input_file) + 11)%nat).
  { unfold x. rewrite !append_length, <- (stem_suffix_length input_file). cbn. lia. }
  assert (Hfree : PyStr.has_char "/" x = false).
  { unfold x. rewrite !has_char_append.
    rewrite stem_no_slash, suffix_no_slash by apply name_no_slash. reflexivity. }
  assert (Hkeep : PurePath.keep_part x = true) by (apply keep_part_long; lia).
  destruct (join_snoc (removelast (PurePath.parts input_file)) x) as (pre & Hj & Hpre).
  unfold PurePath.to_str. cbn [PurePath.root PurePath.parts]. rewrite Hj.
  change (PurePath.root input_file) with (PurePath.parse_root input_path).
  assert (Hs : exists pre2,
             PurePath.parse_root input_path +:+ pre +:+ x = pre2 +:+ x
             /\ (pre2 = EmptyString \/ exists pre', pre2 = pre' +:+ "/")).
  { destruct Hpre as [->|[pre' ->]].
    - destruct (parse_root_cases input_path) as [->|[->| ->]].
      + exists EmptyString. split; [reflexivity | now left].
      + exists "/". split; [reflexivity | right; now exists EmptyString].
      + exists "//". split; [reflexivity | right; now exists "/"].
    - exists (PurePath.parse_root input_path +:+ pre' +:+ "/"). split.
      + now rewrite !append_assoc.
      + right. exists (PurePath.parse_root input_path +:+ pre').
        now rewrite !append_assoc. }
  destruct Hs as (pre2 & Hs & Hpre2). rewrite Hs.
  assert (Hne : String.eqb (pre2 +:+ x) EmptyString = false).
  { apply String.eqb_neq. intros E. apply (f_equal String.length) in E.
    rewrite append_length in E. cbn in E. lia. }
  rewrite Hne. intros Heq.
  pose proof (name_of_last_component pre2 x Hfree Hkeep Hpre2) as Hname.
  rewrite Heq in Hname. fold input_file in Hname.
  rewrite Hname in Hlen. lia.
Qed.

(** ** More on compress_image *)

Section CompressMore.

Context `{P : Platform}.

Implicit Types (w : world) (img : Image) (q : Z).

(** X4: an existing input with a supported extension that Pillow cannot
    open raises [ValueError] with the message "Error opening image: "
    followed by Pillow's; the file was opened, nothing was saved and no
    file has changed. *)
Theorem undecodable_input_raises
    w (input_path : string) (output_path : option string) q
    (max_width max_height : option Z) (n : node) (e : exn) :
  files w !! locate input_path = Some n ->
  PyStr.mem (file_ext input_path) supported_formats = true ->
  decode n = inl e ->
  compress_image input_path output_path q max_width max_height w
  = (inl (ValueError ("Error opening image: " +:+ exn_str e)),
     {| files := files w; log := (log w ++ [EvOpen input_path])%list |}).
Proof.
  intros Hn Hext Hd.
  rewrite (compress_image_checked _ _ _ _ _ _ _ Hn Hext). cbv zeta.
  rewrite Hd. reflexivity.
Qed.

Lemma size_eqb_refl (s : Z * Z) : size_eqb s s = true.
Proof. unfold size_eqb. now rewrite !Z.eqb_refl. Qed.

(** X5: when neither bound is exceeded (a bound may be absent or 0) the
    image goes on as it is: no new size, no resampling. *)
Theorem resize_within_bounds_is_identity
    img (max_width max_height : option Z) w :
  slack max_width (fst (im_size img)) ->
  slack max_height (snd (im_size img)) ->
  new_dimensions (im_size img) max_width max_height = inr (im_size img)
  /\ resize_step img max_width max_height w = (inr img, w).
Proof.
  intros Hw Hh.
  assert (Hdim : new_dimensions (im_size img) max_width max_height
                 = inr (im_size img)).
  { destruct (im_size img) as [W H]. cbn [fst snd] in *.
    unfold new_dimensions.
    assert (Hw' : match max_width with
                  | Some mw => truthy max_width && (mw <? W)%Z = false
                  | None => True
                  end).
    { destruct max_width as [mw|]; [ | exact I]. cbn [truthy].
      destruct Hw as [->|Hw]; [reflexivity | ].
      apply andb_false_iff. right. apply Z.ltb_ge. exact Hw. }
    assert (Hh' : match max_height with
                  | Some mh => truthy max_height && (mh <? H)%Z = false
                  | None => True
                  end).
    { destruct max_height as [mh|]; [ | exact I]. cbn [truthy].
      destruct Hh as [->|Hh]; [reflexivity | ].
      apply andb_false_iff. right. apply Z.ltb_ge. exact Hh. }
    destruct max_width as [mw|]; [rewrite Hw' | ]; cbn [res_bind];
      (destruct max_height as [mh|]; [rewrite Hh' | ]; reflexivity). }
  split; [exact Hdim | ].
  rewrite resize_step_pure. unfold resized. rewrite Hdim. cbn [res_bind].
  rewrite size_eqb_refl. cbn [negb]. destruct (_ || _); reflexivity.
Qed.

(** X6: what a call does to the outside, in every case: it prints
    nothing; it opens nothing, or the input once; and after opening it
    saves at most once, to the resolved output path. *)
Theorem compress_image_events
    w (input_path : string) (output_path : option string) q
    (max_width max_height : option Z) :
  exists events,
    log (snd (compress_image input_path output_path q max_width max_height w))
    = (log w ++ events)%list
    /\ (events = []
        \/ events = [EvOpen input_path]
        \/ exists img fmt params,
             events = [EvOpen input_path;
                       EvSave img (resolved_str input_path output_path) fmt params]).
Proof.
  destruct (files w !! locate input_path) as [n|] eqn:Hn.
  2:{ exists []. unfold compress_image, bind. rewrite (exists_false _ _ Hn).
      cbn. rewrite app_nil_r. auto. }
  destruct (PyStr.mem (file_ext input_path) supported_formats) eqn:Hext.
  2:{ exists []. unfold compress_image, bind. rewrite (exists_true _ _ _ Hn).
      cbn [negb]. rewrite Hext. cbn. rewrite app_nil_r. auto. }
  rewrite (compress_image_checked _ _ _ _ _ _ _ Hn Hext). cbv zeta.
  destruct (decode n) as [e|img0]; [exists [EvOpen input_path]; cbn; auto | ].
  destruct (resized img0 _ _) as [e|img1]; [exists [EvOpen input_path]; cbn; auto | ].
  destruct (flattened img1 _) as [e|img2]; [exists [EvOpen input_path]; cbn; auto | ].
  rewrite save_step_call. unfold Image_save.
  set (fmt := fst (save_call _ q)). set (params := snd (save_call _ q)).
  exists [EvOpen input_path;
          EvSave img2 (resolved_str input_path output_path) fmt params].
  split; [ | right; right; eauto].
  destruct (save_outcome _ _ _ _ _); cbn; now rewrite <- app_assoc.
Qed.

End CompressMore.

Lemma undecodable_input_raises_witness :
  let w := {| files := <["notes.png" := File [Byte.x00]]> ∅; log := [] |} in
  compress_image "notes.png" None 85 None None w
  = (inl (ValueError "Error opening image: cannot identify image file"),
     {| files := files w; log := [EvOpen "notes.png"] |}).
Proof.
  cbv zeta.
  apply (undecodable_input_raises
           {| files := <["notes.png" := File [Byte.x00]]> ∅; log := [] |}
           "notes.png" None 85 None None (File [Byte.x00])
           (OSError "cannot identify image file")); reflexivity.
Defined.

Lemma resize_within_bounds_is_identity_witness :
  resize_step (Raster.picture (200, 200)%Z "RGB") (Some 0%Z) (Some 200%Z) Raster.start
  = (inr (Raster.picture (200, 200)%Z "RGB"), Raster.start).
Proof.
  apply (resize_within_bounds_is_identity (Raster.picture (200, 200)%Z "RGB")
           (Some 0%Z) (Some 200%Z) Raster.start).
  - left. reflexivity.
  - right. cbn. lia.
Defined.

(** ** More on the resize arithmetic *)

Lemma truncated_quotient_range (k den h : Z) :
  (0 < k)%Z -> (0 < den)%Z -> truncated_quotient k den h ->
  (0 <= h <= k / den)%Z.
Proof.
  intros Hk Hden [[Hlo Hhi] Hex]. split; [ | exact Hhi].
  destruct (Z.le_gt_cases 1 (k / den)) as [H1|H0]; [lia | ].
  assert (Hq : (k / den = 0)%Z).
  { pose proof (Z.div_pos k den ltac:(lia) Hden). lia. }
  rewrite Hq in *. rewrite Hex; [lia | ].
  pose proof (Z.div_mod k den ltac:(lia)) as Hdm. rewrite Hq in Hdm. lia.
Qed.

Lemma bound_width_box (W H : Z) (mw : option Z) :
  (0 < W < 2 ^ 26)%Z -> (0 < H < 2 ^ 26)%Z -> positive_bound mw ->
  exists w h,
    bound_width (W, H) mw = inr (w, h)
    /\ (0 < w <= W)%Z /\ (0 <= h <= H)%Z /\ within mw w.
Proof.
  intros HW HH Hmw. destruct mw as [b|]; cbn [positive_bound within] in *.
  2:{ exists W, H. split; [reflexivity | lia]. }
  unfold bound_width. cbn [fst snd].
  destruct (Z.ltb_spec b W) as [Hlt|Hge].
  - replace (negb (b =? 0)%Z) with true
      by (symmetry; apply negb_true_iff, Z.eqb_neq; lia).
    cbn [andb].
    assert (HK : (H * b < 2 ^ 52)%Z).
    { change (2 ^ 52)%Z with (2 ^ 26 * 2 ^ 26)%Z.
      apply Z.mul_lt_mono_nonneg; lia. }
    assert (HW' : (W < 2 ^ 1000)%Z).
    { apply Z.lt_trans with (2 ^ 26)%Z; [lia | reflexivity]. }
    destruct (scaled_floor H b W ltac:(lia) ltac:(lia) HW' HK) as (h & -> & Hh).
    apply truncated_quotient_range in Hh; [ | nia | lia].
    exists b, h. split; [reflexivity | ].
    assert ((H * b / W <= H)%Z) by (apply Z.div_le_upper_bound; nia).
    lia.
  - rewrite andb_false_r. exists W, H. split; [reflexivity | lia].
Qed.

Lemma bound_height_box (W H : Z) (mh : option Z) :
  (0 < W < 2 ^ 26)%Z -> (0 <= H < 2 ^ 26)%Z -> positive_bound mh ->
  exists w h,
    bound_height (W, H) mh = inr (w, h)
    /\ (0 <= w <= W)%Z /\ (0 <= h <= H)%Z /\ within mh h.
Proof.
  intros HW HH Hmh. destruct mh as [b|]; cbn [positive_bound within] in *.
  2:{ exists W, H. split; [reflexivity | lia]. }
  unfold bound_height. cbn [fst snd].
  destruct (Z.ltb_spec b H) as [Hlt|Hge].
  - replace (negb (b =? 0)%Z) with true
      by (symmetry; apply negb_true_iff, Z.eqb_neq; lia).
    cbn [andb].
    assert (HK : (W * b < 2 ^ 52)%Z).
    { change (2 ^ 52)%Z with (2 ^ 26 * 2 ^ 26)%Z.
      apply Z.mul_lt_mono_nonneg; lia. }
    assert (HH' : (H < 2 ^ 1000)%Z).
    { apply Z.lt_trans with (2 ^ 26)%Z; [lia | reflexivity]. }
    destruct (scaled_floor W b H ltac:(lia) ltac:(lia) HH' HK) as (w & -> & Hw).
    apply truncated_quotient_range in Hw; [ | nia | lia].
    exists w, b. split; [reflexivity | ].
    assert ((W * b / H <= W)%Z) by (apply Z.div_le_upper_bound; nia).
    lia.
  - rewrite andb_false_r. exists W, H. split; [reflexivity | lia].
Qed.

(** X7: for an image of positive dimensions below [2 ^ 26] and positive
    bounds, the new size is computed without error, never exceeds the
    original in either dimension, and respects each bound that is given:
    the result fits the bounding box.  A dimension can come out as 0. *)
Theorem new_size_fits_bounding_box (W H : Z) (max_width max_height : option Z) :
  (0 < W < 2 ^ 26)%Z -> (0 < H < 2 ^ 26)%Z ->
  positive_bound max_width -> positive_bound max_height ->
  exists w h,
    new_dimensions (W, H) max_width max_height = inr (w, h)
    /\ (0 <= w <= W)%Z /\ (0 <= h <= H)%Z
    /\ within max_width w /\ within max_height h.
Proof.
  intros HW HH Hmw Hmh. rewrite new_dimensions_stages.
  destruct (bound_width_box W H max_width HW HH Hmw)
    as (w1 & h1 & -> & Hw1 & Hh1 & Hin1).
  cbn [res_bind].
  destruct (bound_height_box w1 h1 max_height ltac:(lia) ltac:(lia) Hmh)
    as (w2 & h2 & -> & Hw2 & Hh2 & Hin2).
  exists w2, h2. split; [reflexivity | ].
  repeat split; try lia; try assumption.
  destruct max_width as [b|]; cbn [within] in *; [lia | exact I].
Qed.

Lemma new_size_fits_bounding_box_witness :
  exists w h,
    new_dimensions (4000, 3000)%Z (Some 1920%Z) (Some 1080%Z) = inr (w, h)
    /\ (0 <= w <= 4000)%Z /\ (0 <= h <= 3000)%Z
    /\ (w <= 1920)%Z /\ (h <= 1080)%Z.
Proof.
  apply (new_size_fits_bounding_box 4000 3000 (Some 1920%Z) (Some 1080%Z));
    cbn; lia.
Defined.

(** X8: an image so wide that [H * max_width < W] gets the new height
    0: the truncation leaves nothing (the same holds for the width of an
    image so tall that [W * max_height < H]). *)
Theorem thin_image_collapses (W H bound : Z) :
  (0 < H)%Z -> (0 < bound)%Z -> (H * bound < W)%Z ->
  (W < 2 ^ 1000)%Z -> (H * bound < 2 ^ 52)%Z ->
  new_dimensions (W, H) (Some bound) None = inr (bound, 0%Z)
  /\ new_dimensions (H, W) None (Some bound) = inr (0%Z, bound).
Proof.
  intros HH Hb Hthin HW HK.
  assert (Hlt : (0 < bound < W)%Z) by nia.
  assert (Hq : truncated_quotient (H * bound) W 0 /\
               forall h, truncated_quotient (H * bound) W h -> h = 0%Z).
  { assert (Hd : (H * bound / W = 0)%Z) by (apply Z.div_small; nia).
    assert (Hm : ((H * bound) mod W = H * bound)%Z) by (apply Z.mod_small; nia).
    split.
    - unfold truncated_quotient. rewrite Hd. lia.
    - intros h [_ Hex]. rewrite Hd in Hex. apply Hex. rewrite Hm. nia. }
  destruct Hq as [_ Hzero]. split.
  - destruct (bound_width_floor W H bound HH Hlt HW HK) as (h & Hbw & Hh).
    rewrite new_dimensions_stages, Hbw. cbn [res_bind bound_height].
    now rewrite (Hzero h Hh).
  - destruct (bound_height_floor H W bound HH Hlt HW HK) as (w & Hbh & Hw).
    rewrite new_dimensions_stages. cbn [bound_width res_bind]. rewrite Hbh.
    now rewrite (Hzero w Hw).
Qed.

Lemma thin_image_collapses_witness :
  new_dimensions (1000, 3)%Z (Some 100%Z) None = inr (100, 0)%Z.
Proof.
  apply (thin_image_collapses 1000 3 100); try lia; vm_compute; reflexivity.
Defined.

(** ** More on the interactive front end *)

Section ScriptMore.

Context `{P : Platform}.

Implicit Types (w : world) (q : Z).

(** What [image_compressor] of script.py ends with. *)
Lemma image_compressor_cases (file_path : string) q w :
  image_compressor file_path q w
  = if existsb (fun s => PyStr.endswith s (PyStr.lower file_path)) picker_formats
    then
      let w1 := emit (EvOpen file_path) w in
      match files w !! locate file_path with
      | None =>
          (inr tt,
           emit (EvPrint ("Error compressing image: "
                          +:+ exn_str (os_error (files w) file_path))) w1)
      | Some n =>
          match decode n with
          | inl e => (inr tt, emit (EvPrint ("Error compressing image: " +:+ exn_str e)) w1)
          | inr img =>
              match Image_save img (script_output file_path) FromExtension
                      {| quality := Some q; optimize := true |} w1 with
              | (inl e, w2) =>
                  (inr tt, emit (EvPrint ("Error compressing image: " +:+ exn_str e)) w2)
              | (inr _, w2) =>
                  (inr tt,
                   emit (EvPrint ("Image compressed and saved as: "
                                  +:+ script_output file_path)) w2)
              end
          end
      end
    else (inr tt, emit (EvPrint "Unsupported image format!") w).
Proof.
  unfold image_compressor, try_except, script_output.
  destruct (existsb _ picker_formats); [ | reflexivity].
  unfold bind at 1. unfold Image_open.
  destruct (files w !! locate file_path) as [n|]; [ | reflexivity].
  destruct (decode n) as [e|img]; [reflexivity | ].
  destruct (PosixPath.splitext file_path) as [base ext]. cbn [fst snd].
  unfold bind.
  destruct (Image_save img _ _ _ _) as [[e|u] w2]; reflexivity.
Qed.


(** X10: script.py writes to the input path with "_compressed" put
    before the extension; that path is never the input path as given,
    and no file but the one it denotes changes. *)
Theorem script_writes_beside_input (file_path : string) q w :
  script_output file_path <> file_path
  /\ forall k, k <> locate (script_output file_path) ->
               files (snd (image_compressor file_path q w)) !! k = files w !! k.
Proof.
  split.
  - unfold script_output. intros Heq.
    apply (f_equal String.length) in Heq.
    assert (Hrt : fst (PosixPath.splitext file_path)
                  +:+ snd (PosixPath.splitext file_path) = file_path).
    { unfold PosixPath.splitext.
      destruct (PyStr.rfind "." file_path) as [dot|]; cbn [fst snd];
        [ | apply append_nil].
      destruct (_ && _); cbn [fst snd]; [apply take_drop | apply append_nil]. }
    rewrite <- Hrt in Heq at 3. rewrite !append_length in Heq. cbn in Heq. lia.
  - intros k Hk. rewrite image_compressor_cases.
    destruct (existsb _ picker_formats); [ | reflexivity].
    cbv zeta. destruct (files w !! locate file_path) as [n|]; [ | reflexivity].
    destruct (decode n) as [e|img]; [reflexivity | ].
    pose proof (Image_save_frame img (script_output file_path) FromExtension
                  {| quality := Some q; optimize := true |}
                  (emit (EvOpen file_path) w) k Hk) as Hf.
    destruct (Image_save _ _ _ _ _) as [[e|u] w2]; exact Hf.
Qed.

End ScriptMore.

Lemma script_writes_beside_input_witness :
  files (snd (image_compressor "shots/test.bmp" 400 Raster.start)) !! "shots/test.bmp"
  = files Raster.start !! "shots/test.bmp".
Proof.
  apply (proj2 (script_writes_beside_input "shots/test.bmp" 400 Raster.start)).
  vm_compute. discriminate.
Defined.

(** ** The command line *)

Section MoreBinary64.

Local Open Scope Z_scope.

(** [a / b] never raises when the quotient is below [2 ^ 52]: it is a
    positive double for [0 < a], and [0.0] for [a = 0]. *)
Lemma truediv_quotient a b :
  0 <= a -> 0 < b < 2 ^ 1000 -> a < 2 ^ 52 * b ->
  exists x,
    PyFloat.truediv a b = inr x
    /\ (a = 0 -> x = S754_zero false)
    /\ (0 < a -> exists m e, x = S754_finite false m e).
Proof.
  intros Ha [Hb0 Hb] Hab. unfold PyFloat.truediv.
  change PyFloat.prec with 53. change PyFloat.emax with 1024.
  destruct (Z.eqb_spec b 0) as [->|_]; [lia | ].
  destruct b as [|pb|pb]; try lia.
  destruct a as [|pa|pa]; try lia.
  { exists (S754_zero false). split; [reflexivity | ]. split; [reflexivity | lia]. }
  cbn [PyFloat.exact SFdiv xorb]. unfold SFdiv_core_binary. cbn [Zdigits2].
  pose proof (digits2_bounds pa) as [Ha1 Ha2].
  pose proof (digits2_bounds pb) as [Hb1 Hb2].
  set (d1 := Z.pos (digits2_pos pa)) in *. set (d2 := Z.pos (digits2_pos pb)) in *.
  assert (Hd1 : 1 <= d1) by (unfold d1; lia).
  assert (Hd2 : 1 <= d2 <= 1000).
  { split; [unfold d2; lia | ].
    assert (d2 - 1 < 1000) by (apply (Z.pow_lt_mono_r_iff 2); lia). lia. }
  assert (Hd12 : d1 <= d2 + 52).
  { assert (d1 - 1 < 52 + d2); [ | lia].
    apply (Z.pow_lt_mono_r_iff 2); [lia | lia | ].
    rewrite Z.pow_add_r by lia.
    apply Z.le_lt_trans with (Z.pos pa); [exact Ha1 | ].
    apply Z.lt_trans with (2 ^ 52 * Z.pos pb); [exact Hab | ].
    apply Z.mul_lt_mono_pos_l; [reflexivity | exact Hb2]. }
  rewrite fexp_eq.
  replace (Z.min (Z.max (d1 + 0 - (d2 + 0) - 53) (-1074)) (0 - 0))
    with (d1 - d2 - 53) by lia.
  set (s := 53 + d2 - d1).
  replace (0 - 0 - (d1 - d2 - 53)) with s by (unfold s; lia).
  assert (Hs : 1 <= s <= 1052) by (unfold s; lia).
  replace (match s with 0 => Z.pos pa | Z.pos _ => Z.shiftl (Z.pos pa) s | Z.neg _ => 0 end)
    with (Z.pos pa * 2 ^ s)
    by (destruct s; try lia; now rewrite Z.shiftl_mul_pow2).
  pose proof (Z_div_mod (Z.pos pa * 2 ^ s) (Z.pos pb) eq_refl) as Hdm.
  destruct (Z.div_eucl (Z.pos pa * 2 ^ s) (Z.pos pb)) as [q r].
  destruct Hdm as [Hq Hr].
  pose proof (pow2_pos s ltac:(lia)) as Hps.
  assert (Hqlo : 2 ^ 52 <= q).
  { assert (H1 : Z.pos pb * 2 ^ 52 < Z.pos pa * 2 ^ s).
    { apply Z.lt_le_trans with (2 ^ d2 * 2 ^ 52); [apply Z.mul_lt_mono_pos_r; lia | ].
      apply Z.le_trans with (2 ^ (d1 - 1) * 2 ^ s);
        [ | apply Z.mul_le_mono_nonneg_r; lia].
      rewrite <- !Z.pow_add_r by lia. apply Z.pow_le_mono_r; unfold s; lia. }
    assert (H2 : Z.pos pb * 2 ^ 52 < Z.pos pb * (q + 1)) by lia.
    apply Z.mul_lt_mono_pos_l in H2; lia. }
  assert (Hqhi : q < 2 ^ 54).
  { assert (H1 : Z.pos pa * 2 ^ s < Z.pos pb * 2 ^ 54).
    { apply Z.lt_le_trans with (2 ^ d1 * 2 ^ s); [apply Z.mul_lt_mono_pos_r; lia | ].
      apply Z.le_trans with (2 ^ (d2 - 1) * 2 ^ 54);
        [ | apply Z.mul_le_mono_nonneg_r; lia].
      rewrite <- !Z.pow_add_r by lia. apply Z.pow_le_mono_r; unfold s; lia. }
    assert (H2 : Z.pos pb * q < Z.pos pb * 2 ^ 54) by lia.
    apply Z.mul_lt_mono_pos_l in H2; lia. }
  assert (Hn : Zdigits2 q - 53 = 0 \/ Zdigits2 q - 53 = 1).
  { destruct (Z.lt_ge_cases q (2 ^ 53)).
    - left. rewrite (Zdigits2_unique q 53); [reflexivity | lia | ].
      change (53 - 1) with 52. lia.
    - right. rewrite (Zdigits2_unique q 54); [reflexivity | lia | ].
      change (54 - 1) with 53. lia. }
  destruct (round_aux_normal false q (d1 - d2 - 53) (new_location (Z.pos pb) r)
              (Z.pos pa * 2 ^ s) (Z.pos pb))
    as (m & e & k & -> & -> & _); try lia.
  { rewrite Hq. apply new_location_located; lia. }
  eexists. split; [reflexivity | ]. split; [lia | eauto].
Qed.

End MoreBinary64.

Section MainMore.

Context `{P : Platform}.

Variable directory_size : Z.

Implicit Types (w : world) (c : console) (args : cli_args).

Lemma get_file_size_mb_missing (path : string) w :
  files w !! locate path = None ->
  get_file_size_mb directory_size path w = (inl (os_error (files w) path), w).
Proof.
  intros H. unfold get_file_size_mb, bind, os_path_getsize. now rewrite H.
Qed.

Lemma get_file_size_mb_world (path : string) w :
  snd (get_file_size_mb directory_size path w) = w.
Proof.
  unfold get_file_size_mb, bind, os_path_getsize, lift.
  destruct (files w !! locate path) as [[data|]|]; reflexivity.
Qed.

(** X11: the size of a regular file of less than [2 ^ 62] bytes is
    reported without error and without touching the world: as [0.0] for
    an empty file, as a positive float otherwise. *)
Theorem file_size_mb_of_regular_file (path : string) (data : list Byte.byte) w :
  files w !! locate path = Some (File data) ->
  (Z.of_nat (List.length data) < 2 ^ 62)%Z ->
  exists x,
    get_file_size_mb directory_size path w = (inr x, w)
    /\ (data = [] -> x = S754_zero false)
    /\ (data <> [] -> float_positive x = true).
Proof.
  intros Hf Hsize. unfold get_file_size_mb, bind, os_path_getsize, lift.
  rewrite Hf.
  destruct (truediv_quotient (Z.of_nat (List.length data)) (1024 * 1024))
    as (x & Hx & Hzero & Hpos).
  - lia.
  - split; [reflexivity | ]. vm_compute. reflexivity.
  - apply Z.lt_le_trans with (2 ^ 62)%Z; [exact Hsize | ].
    vm_compute. discriminate.
  - exists x. split; [now rewrite Hx | ]. split.
    + intros ->. apply Hzero. reflexivity.
    + intros Hne. destruct Hpos as (m & e & ->); [ | reflexivity].
      destruct data; [contradiction | cbn; lia].
Qed.

(** X12: the percentage is always computed: the guard on the original
    size keeps the division from raising, a non-positive original size
    gives the int 0, and either value can be formatted. *)
Theorem reduction_never_raises (original_size compressed_size : spec_float) :
  exists v text,
    reduction_of original_size compressed_size = inr v
    /\ format_fixed 1 v = inr text
    /\ (float_positive original_size = false -> v = PyInt 0 /\ text = "0.0").
Proof.
  unfold reduction_of.
  destruct original_size as [s|[]| |[] m e]; cbn [float_positive float_div].
  all: try (exists (PyInt 0), "0.0"; repeat split; reflexivity).
  all: change (PyFloat.of_int 100) with (inr (B := spec_float) (A := exn)
         (S754_finite false 7036874417766400 (-46))); cbn [res_bind].
  all: eexists _, _; split; [reflexivity | ]; split; [reflexivity | discriminate].
Qed.

(** The body of the [try], taken apart. *)
Lemma main_body_cases args w :
  main_body directory_size args w
  = match get_file_size_mb directory_size (arg_input args) w with
    | (inl e, _) => (inl e, w)
    | (inr original_size, _) =>
        match compress_image (arg_input args) (arg_output args) (arg_quality args)
                (arg_max_width args) (arg_max_height args) w with
        | (inl e, w1) => (inl e, w1)
        | (inr output_path, w1) =>
            match get_file_size_mb directory_size output_path w1 with
            | (inl e, _) => (inl e, w1)
            | (inr compressed_size, _) =>
                match reduction_of original_size compressed_size with
                | inl e => (inl e, w1)
                | inr reduction =>
                    match format_fixed 1 reduction with
                    | inl e => (inl e, w1)
                    | inr reduction_text =>
                        (inr [success_line;
                              "  Input:  " +:+ arg_input args +:+ " ("
                              +:+ PyFormat.fixed 2 original_size +:+ " MB)";
                              "  Output: " +:+ output_path +:+ " ("
                              +:+ PyFormat.fixed 2 compressed_size +:+ " MB)";
                              "  Size reduction: " +:+ reduction_text +:+ "%"],
                         w1)
                    end
                end
            end
        end
    end.
Proof.
  unfold main_body. unfold bind at 1.
  pose proof (get_file_size_mb_world (arg_input args) w) as Hw0.
  destruct (get_file_size_mb directory_size (arg_input args) w) as [[e|o] w0];
    cbn [snd] in Hw0; subst w0; [reflexivity | ].
  unfold bind at 1.
  destruct (compress_image _ _ _ _ _ w) as [[e|p] w1]; [reflexivity | ].
  unfold bind at 1.
  pose proof (get_file_size_mb_world p w1) as Hw2.
  destruct (get_file_size_mb directory_size p w1) as [[e|cs] w2];
    cbn [snd] in Hw2; subst w2; [reflexivity | ].
  unfold bind, lift, ret. cbn [format_fixed].
  destruct (reduction_of o cs) as [e|r]; [reflexivity | ].
  destruct (format_fixed 1 r); reflexivity.
Qed.

(** X13: the quality is checked before anything else: outside 1..100
    the command exits with status 1 and the quality message on standard
    error, whatever the input path is; no file is looked at, opened or
    written. *)
Theorem cli_rejects_quality_first args w c :
  (arg_quality args < 1 \/ 100 < arg_quality args)%Z ->
  main directory_size args w c
  = (1%Z, w,
     {| stdout := stdout c;
        stderr := (stderr c ++ ["Error: Quality must be between 1 and 100"])%list |}).
Proof.
  intros Hq. unfold main.
  replace ((arg_quality args <? 1)%Z || (100 <? arg_quality args)%Z) with true;
    [reflexivity | ].
  symmetry. apply orb_true_iff.
  destruct Hq; [left | right]; now apply Z.ltb_lt.
Qed.

(** X14: on the command line, with a quality in range, an input path
    that leads nowhere is reported by the size query that comes first:
    the line on standard error is "Error: " followed by the message of
    the operating system's error, whatever that is; [compress_image] is
    not reached, nothing is opened, the world is as it was and the exit
    status is 1. *)
Theorem cli_missing_input args w c :
  (1 <= arg_quality args <= 100)%Z ->
  files w !! locate (arg_input args) = None ->
  main directory_size args w c
  = (1%Z, w,
     {| stdout := stdout c;
        stderr := (stderr c ++
                   ["Error: " +:+ exn_str (os_error (files w) (arg_input args))])%list |}).
Proof.
  intros Hq Hn. unfold main.
  replace ((arg_quality args <? 1)%Z || (100 <? arg_quality args)%Z) with false
    by (symmetry; apply orb_false_iff; split; apply Z.ltb_ge; lia).
  rewrite main_body_cases, (get_file_size_mb_missing _ _ Hn). reflexivity.
Qed.


(** X16: whatever the command ends with, no file but the one the
    resolved output path denotes has changed. *)
Theorem cli_writes_only_output args w c (k : string) :
  k <> locate (resolved_str (arg_input args) (arg_output args)) ->
  files (snd (fst (main directory_size args w c))) !! k = files w !! k.
Proof.
  intros Hk. unfold main.
  destruct (_ || _); [reflexivity | ].
  rewrite main_body_cases.
  pose proof (compress_image_frame w (arg_input args) (arg_output args)
                (arg_quality args) (arg_max_width args) (arg_max_height args) k Hk)
    as Hf.
  destruct (get_file_size_mb directory_size (arg_input args) w) as [[e|o] w0];
    [reflexivity | ].
  destruct (compress_image _ _ _ _ _ w) as [[e|p] w1]; [exact Hf | ].
  destruct (get_file_size_mb directory_size p w1) as [[e|cs] w2]; [exact Hf | ].
  destruct (reduction_of o cs) as [e|r]; [exact Hf | ].
  destruct (format_fixed 1 r) as [e|text]; exact Hf.
Qed.

(** X17: for an existing regular file of less than [2 ^ 62] bytes, at
    a path of ASCII characters, whose extension is not supported, the
    command exits with status 1 and the message of [compress_image] on
    standard error; nothing is opened and the world is as it was. *)
Theorem cli_unsupported_format args w c (data : list Byte.byte) :
  ascii_only (arg_input args) = true ->
  (1 <= arg_quality args <= 100)%Z ->
  files w !! locate (arg_input args) = Some (File data) ->
  (Z.of_nat (List.length data) < 2 ^ 62)%Z ->
  PyStr.mem (file_ext (arg_input args)) supported_formats = false ->
  main directory_size args w c
  = (1%Z, w,
     {| stdout := stdout c;
        stderr := (stderr c ++
                   ["Error: Unsupported file format: " +:+ file_ext (arg_input args)
                    +:+ ". Supported: .png, .jpg, .jpeg"])%list |}).
Proof.
  intros _ Hq Hf Hsize Hext. unfold main.
  replace ((arg_quality args <? 1)%Z || (100 <? arg_quality args)%Z) with false
    by (symmetry; apply orb_false_iff; split; apply Z.ltb_ge; lia).
  rewrite main_body_cases.
  unfold get_file_size_mb at 1. unfold bind, os_path_getsize, lift. rewrite Hf.
  destruct (truediv_quotient (Z.of_nat (List.length data)) (1024 * 1024))
    as (x & -> & _).
  - lia.
  - split; [reflexivity | ]. vm_compute. reflexivity.
  - apply Z.lt_le_trans with (2 ^ 62)%Z; [exact Hsize | ]. vm_compute. discriminate.
  - unfold compress_image, bind. rewrite (exists_true _ _ _ Hf).
    cbn [negb]. rewrite Hext. reflexivity.
Qed.

End MainMore.

Example cli_run_example :
  fst (fst (main 4096 (sample_args "shots/test.png" 85) Raster.start quiet)) = 0%Z
  /\ snd (main 4096 (sample_args "shots/test.png" 85) Raster.start quiet)
     = {| stdout := [success_line;
                     "  Input:  shots/test.png (0.00 MB)";
                     "  Output: shots/test_compressed.png (0.00 MB)";
                     "  Size reduction: 0.0%"];
          stderr := [] |}.
Proof. split; vm_compute; reflexivity. Qed.

Lemma file_size_mb_of_regular_file_witness :
  exists x,
    get_file_size_mb 4096 "shots/test.png" Raster.start = (inr x, Raster.start)
    /\ float_positive x = true.
Proof.
  destruct (file_size_mb_of_regular_file 4096 "shots/test.png"
              [Byte.xc8; Byte.xc8; Byte.x00; Byte.x50] Raster.start eq_refl)
    as (x & Hx & _ & Hpos).
  - vm_compute. reflexivity.
  - exists x. split; [exact Hx | ]. apply Hpos. discriminate.
Defined.

Lemma cli_rejects_quality_first_witness :
  main 4096 (sample_args "shots/none.png" 101) Raster.start quiet
  = (1%Z, Raster.start,
     {| stdout := []; stderr := ["Error: Quality must be between 1 and 100"] |}).
Proof.
  apply (cli_rejects_quality_first 4096 (sample_args "shots/none.png" 101)
           Raster.start quiet).
  right. cbn. lia.
Defined.

Lemma cli_missing_input_witness :
  main 4096 (sample_args "shots/none.png" 85) Raster.start quiet
  = (1%Z, Raster.start,
     {| stdout := [];
        stderr := ["Error: [Errno 2] No such file or directory: 'shots/none.png'"] |}).
Proof.
  apply (cli_missing_input 4096 (sample_args "shots/none.png" 85) Raster.start quiet).
  - cbn. lia.
  - reflexivity.
Defined.

Lemma cli_writes_only_output_witness :
  files (snd (fst (main 4096 (sample_args "shots/test.png" 85) Raster.start quiet)))
    !! "shots/test.png"
  = files Raster.start !! "shots/test.png".
Proof.
  apply (cli_writes_only_output 4096 (sample_args "shots/test.png" 85)
           Raster.start quiet "shots/test.png").
  vm_compute. discriminate.
Defined.

Lemma cli_unsupported_format_witness :
  main 4096 (sample_args "shots/test.bmp" 85) Raster.start quiet
  = (1%Z, Raster.start,
     {| stdout := [];
        stderr := ["Error: Unsupported file format: .bmp. Supported: .png, .jpg, .jpeg"] |}).
Proof.
  apply (cli_unsupported_format 4096 (sample_args "shots/test.bmp" 85)
           Raster.start quiet [Byte.xc8; Byte.xc8; Byte.x00; Byte.x50]).
  - reflexivity.
  - cbn. lia.
  - reflexivity.
  - vm_compute. reflexivity.
  - reflexivity.
Defined.
